(** * rumoureval: the SDQC stance classifier (classification/sdqc.py)

    A shallow embedding of the deterministic parts of [sdqc.py]: the
    training filter [filter_tweets], the one-vs-rest relabeler
    [generate_one_vs_rest_annotations] and the ensemble combiner at the end
    of [sdqc].

    Python values are modelled as follows.
    - [str] is [string]; [==] on strings is [String.eqb].
    - a [dict] keyed by strings or integers is a [gmap].
    - a [list] (or the array returned by [predict]) is a [list]; reading
      [xs[i]] out of range raises, which is [None] in the [option] monad.
    - a raised exception aborts the whole call: every function that can
      raise returns an [option].
    - scores and thresholds are rationals ([Q]). *)

From Stdlib Require Import QArith Ascii String.
From stdpp Require Import gmap strings list fin_maps option.

Local Open Scope string_scope.
Local Open Scope list_scope.

(** ** Python primitives used by the module *)

Module Py.

(** [a == b] on [str]. *)
Definition str_eq (a b : string) : bool := String.eqb a b.

(** ['not_{}'.format(one)] *)
Definition format_not (one : string) : string := "not_" +:+ one.

(** [s.split(' ')]: cut at every single space character; adjacent,
    leading and trailing spaces give empty pieces, and the empty string
    gives one empty piece. *)
Fixpoint split_space (s : string) : list string :=
  match s with
  | EmptyString => [EmptyString]
  | String c rest =>
      if Ascii.eqb c " "%char then EmptyString :: split_space rest
      else match split_space rest with
           | piece :: pieces => String c piece :: pieces
           | [] => [String c EmptyString]
           end
  end.

(** [x < y] on scores. *)
Definition lt (x y : Q) : bool := (Qnum x * Zpos (Qden y) <? Qnum y * Zpos (Qden x))%Z.

(** [for x in xs: st = body(st, x)] where the body may raise. *)
Fixpoint for_each {A S : Type} (body : S -> A -> option S) (xs : list A) (st : S)
  : option S :=
  match xs with
  | [] => Some st
  | x :: xs' => match body st x with
                | Some st' => for_each body xs' st'
                | None => None
                end
  end.

(** [range(n)] *)
Definition range (n : nat) : list nat := seq 0 n.

End Py.

(** ** Label Relabeler *)

(** The value stored for one id:
    [annotations[tweet_id] if annotations[tweet_id] == one else 'not_{}'.format(one)]. *)
Definition one_vs_rest_label (one label : string) : string :=
  if Py.str_eq label one then label else Py.format_not one.

(** [generate_one_vs_rest_annotations(annotations, one)]: a fresh dict is
    filled while iterating over the ids of [annotations]. *)
Definition generate_one_vs_rest_annotations
    (annotations : gmap string string) (one : string) : gmap string string :=
  map_fold
    (fun tweet_id label one_vs_rest_annotations =>
       <[tweet_id := one_vs_rest_label one label]> one_vs_rest_annotations)
    ∅ annotations.

(** The values that occur in a dict. *)
Definition dict_value (d : gmap string string) (v : string) : Prop :=
  exists k, d !! k = Some v.

(** ** Ensemble Combiner *)

Section Ensemble.

Variables base_predictions deny_predictions query_predictions : list string.

(** One pass of the loop body at index [i]; both accumulators grow by one
    label. The second branch of each conditional is only evaluated when
    the first test fails, as in the source. *)
Definition combine_step (acc : list string * list string) (i : nat)
  : option (list string * list string) :=
  let '(predictions_wo_deny, predictions_w_deny) := acc in
  b ← base_predictions !! i;
  wo ← (if Py.str_eq b "comment" then Some "comment"
        else q ← query_predictions !! i;
             if Py.str_eq q "query" then Some "query"
             else base_predictions !! i);
  q ← query_predictions !! i;
  w ← (if Py.str_eq q "query" then Some "query"
       else d ← deny_predictions !! i;
            if Py.str_eq d "deny" then Some "deny"
            else base_predictions !! i);
  Some (predictions_wo_deny ++ [wo], predictions_w_deny ++ [w]).

(** [for i in range(len(base_predictions)): ...] starting from two empty
    lists; the result is [(predictions_wo_deny, predictions_w_deny)]. *)
Definition combine : option (list string * list string) :=
  Py.for_each combine_step (Py.range (length base_predictions)) ([], []).

End Ensemble.

(** The label each strategy gives one message, as a function of the three
    classifiers' predictions for it. *)
Definition without_deny_label (b q : string) : string :=
  if Py.str_eq b "comment" then "comment"
  else if Py.str_eq q "query" then "query" else b.

Definition with_deny_label (b d q : string) : string :=
  if Py.str_eq q "query" then "query"
  else if Py.str_eq d "deny" then "deny" else b.

(** What the two accumulators hold when the loop ends normally. *)
Definition wo_deny_all (base query : list string) : list string :=
  zip_with without_deny_label base query.

Definition w_deny_all (base deny query : list string) : list string :=
  zip_with (fun b dq => with_deny_label b dq.1 dq.2) base (zip deny query).

(** [metrics.accuracy_score(y_true, y_pred)]: the fraction of positions
    where the two sequences agree. The library raises on sequences of
    different lengths and on empty sequences. Both scores compared by
    [sdqc] have the same denominator, so comparing the exact fractions
    orders them as the library's quotients are ordered. *)
Definition correct_count (y_true y_pred : list string) : nat :=
  length (filter (fun p => Py.str_eq p.1 p.2 = true) (zip y_true y_pred)).

Definition accuracy_score (y_true y_pred : list string) : option Q :=
  if Nat.eqb (length y_true) (length y_pred) && negb (Nat.eqb (length y_true) 0)
  then Some (Z.of_nat (correct_count y_true y_pred) # Pos.of_nat (length y_true))
  else None.

Inductive Strategy := WithoutDeny | WithDeny.

(** The test of the conditional expression that picks the best predictions:
    [accuracy_score(y, wo) < accuracy_score(y, w)]. *)
Definition best_strategy (y_eval_base wo w : list string) : option Strategy :=
  a_wo ← accuracy_score y_eval_base wo;
  a_w ← accuracy_score y_eval_base w;
  Some (if Py.lt a_wo a_w then WithDeny else WithoutDeny).

(** [predictions = predictions_w_deny if ... else predictions_wo_deny] *)
Definition best_predictions (y_eval_base wo w : list string) : option (list string) :=
  s ← best_strategy y_eval_base wo w;
  Some (match s with WithDeny => w | WithoutDeny => wo end).

(** ** Tweets and threads

    The [Tweet] class is not part of this module. A tweet is modelled as a
    value holding the fields that [filter_tweets] reads (['id'] and the text
    that the detail extractor normalises) and its parent; the parent chain
    of such a value is finite, as the thread trees are. *)

#[local] Unset Elimination Schemes.
Inductive Tweet : Type :=
  MkTweet (id : Z) (text : string) (parent : option Tweet).
#[local] Set Elimination Schemes.

(** Induction along the parent chain. *)
Fixpoint Tweet_parent_ind (P : Tweet -> Prop)
    (Hroot : forall id text, P (MkTweet id text None))
    (Hreply : forall id text parent, P parent -> P (MkTweet id text (Some parent)))
    (t : Tweet) : P t :=
  match t with
  | MkTweet id text None => Hroot id text
  | MkTweet id text (Some parent) =>
      Hreply id text parent (Tweet_parent_ind P Hroot Hreply parent)
  end.

Definition tweet_id (t : Tweet) : Z := let '(MkTweet id _ _) := t in id.
Definition tweet_raw_text (t : Tweet) : string := let '(MkTweet _ text _) := t in text.
Definition tweet_parent (t : Tweet) : option Tweet := let '(MkTweet _ _ parent) := t in parent.

(** [root_tweet = tweet; while root_tweet.parent() is not None:
    root_tweet = root_tweet.parent()] *)
Fixpoint root_of (tweet : Tweet) : Tweet :=
  match tweet with
  | MkTweet _ _ (Some parent) => root_of parent
  | MkTweet _ _ None => tweet
  end.

(** [root_tweet == tweet] compares the end of the walk with the tweet the
    walk started from. Tweets are values here, compared field by field
    along the parent chain; on this test the comparison holds exactly when
    the walk made no step ([root_of_fixed]), as a comparison of object
    identities does. *)
Fixpoint Tweet_eqb (a b : Tweet) : bool :=
  match a, b with
  | MkTweet id1 text1 parent1, MkTweet id2 text2 parent2 =>
      Z.eqb id1 id2 && Py.str_eq text1 text2 &&
      match parent1, parent2 with
      | Some p1, Some p2 => Tweet_eqb p1 p2
      | None, None => true
      | _, _ => false
      end
  end.

(** ** Training Filter *)

Section Filter.

(** [TweetDetailExtractor.get_parseable_tweet_text], defined in another
    module of the package. *)
Variable get_parseable_tweet_text : Tweet -> string.

(** The library computation of lines 70-73: [TfidfVectorizer] fitted on
    the pair [(root_text, tweet_text)], then entry [[0][1]] of
    [cosine_similarity(tfidf_matrix[0:1], tfidf_matrix)]. [None] stands
    for an exception raised by the library. *)
Variable tfidf_cosine_similarity : string -> string -> option Q.

Variable filter_short : bool.
Variable similarity_threshold : Q.

(** [len(tweet_text.split(' ')) < 3] *)
Definition too_short (tweet_text : string) : bool :=
  Nat.ltb (length (Py.split_space tweet_text)) 3.

(** The body of [for tweet in tweets]; the state is
    [(root_cache, filtered_tweets)]. *)
Definition filter_step (st : gmap Z string * list Tweet) (tweet : Tweet)
  : option (gmap Z string * list Tweet) :=
  let '(root_cache, filtered_tweets) := st in
  let root_tweet := root_of tweet in
  if Tweet_eqb root_tweet tweet then
    Some (root_cache, filtered_tweets ++ [tweet])
  else
    let root_text :=
      match root_cache !! tweet_id root_tweet with
      | Some cached => cached
      | None => get_parseable_tweet_text root_tweet
      end in
    let root_cache := <[tweet_id root_tweet := root_text]> root_cache in
    let tweet_text := get_parseable_tweet_text tweet in
    if filter_short && too_short tweet_text then
      Some (root_cache, filtered_tweets)
    else
      similarity ← tfidf_cosine_similarity root_text tweet_text;
      if Py.lt similarity similarity_threshold then
        Some (root_cache, filtered_tweets ++ [tweet])
      else
        Some (root_cache, filtered_tweets).

Definition filter_tweets (tweets : list Tweet) : option (list Tweet) :=
  snd <$> Py.for_each filter_step tweets (∅, []).

(** The root text the loop uses for [tweet] when the cache holds [c]. *)
Definition root_text_at (c : gmap Z string) (tweet : Tweet) : string :=
  default (get_parseable_tweet_text (root_of tweet)) (c !! tweet_id (root_of tweet)).

(** Whether the loop body appends [tweet], given the cache. *)
Definition decision (c : gmap Z string) (tweet : Tweet) : option bool :=
  if Tweet_eqb (root_of tweet) tweet then Some true
  else if filter_short && too_short (get_parseable_tweet_text tweet) then Some false
  else s ← tfidf_cosine_similarity (root_text_at c tweet) (get_parseable_tweet_text tweet);
       Some (Py.lt s similarity_threshold).

(** The cache after the loop body ran on [tweet]. *)
Definition next_cache (c : gmap Z string) (tweet : Tweet) : gmap Z string :=
  if Tweet_eqb (root_of tweet) tweet then c
  else <[tweet_id (root_of tweet) := root_text_at c tweet]> c.

(** Ids identify root texts: two messages of the input whose roots carry
    the same id have roots with the same normalised text. *)
Definition root_ids_unique (tweets : list Tweet) : Prop :=
  forall t1 t2, t1 ∈ tweets -> t2 ∈ tweets ->
    tweet_id (root_of t1) = tweet_id (root_of t2) ->
    get_parseable_tweet_text (root_of t1) = get_parseable_tweet_text (root_of t2).

End Filter.

(** [s.split(' ')] has one piece more than [s] has spaces
    ([split_space_length]). *)
Fixpoint count_spaces (s : string) : nat :=
  match s with
  | EmptyString => 0
  | String c rest => (if Ascii.eqb c " "%char then 1 else 0) + count_spaces rest
  end.

(** *** The spec's reading of the short-text check *)

(** ASCII whitespace: space, tab, line feed, vertical tab, form feed and
    carriage return. *)
Definition is_whitespace (c : ascii) : bool :=
  let n := nat_of_ascii c in
  Nat.eqb n 32 || (Nat.leb 9 n && Nat.leb n 13).

(** The whitespace-separated tokens of a text: the maximal runs of
    characters that are not whitespace. *)
Fixpoint whitespace_tokens (s : string) : list string :=
  match s with
  | EmptyString => []
  | String c rest =>
      if is_whitespace c then whitespace_tokens rest
      else match rest with
           | EmptyString => [String c EmptyString]
           | String c' _ =>
               if is_whitespace c' then String c EmptyString :: whitespace_tokens rest
               else match whitespace_tokens rest with
                    | tok :: toks => String c tok :: toks
                    | [] => [String c EmptyString]
                    end
           end
  end.

(** ** The rest of [sdqc]: label lists, listings and the result dict *)

(** [CLASSES] *)
Definition CLASSES : list string := ["comment"; "deny"; "query"; "support"].

(** [enumerate(xs)] *)
Definition enumerate {A : Type} (xs : list A) : list (nat * A) :=
  zip (seq 0 (length xs)) xs.

(** One row of a misclassification listing: the arguments of the [format]
    call that is printed (gold label, prediction, text of the tweet, text
    of its root). *)
Definition Row : Type := string * string * string * string.

Section Sdqc.

(** [tweet['id_str']], a field of the [Tweet] class. *)
Variable id_str : Tweet -> string.

(** [TweetDetailExtractor.get_parseable_tweet_text]. *)
Variable get_parseable_tweet_text : Tweet -> string.

(** [[annotations[x['id_str']] for x in tweets]] (lines 128-133): a missing
    id raises. *)
Definition annotation_labels (annotations : gmap string string) (tweets : list Tweet)
  : option (list string) :=
  mapM (fun x => annotations !! id_str x) tweets.

(** The body of the two listing loops (lines 271-281 and 290-300), with
    ['query'], ['not_query'] (or ['deny'], ['not_deny']) for [one],
    [not_one]. [and] and [or] evaluate their right operand only when
    needed, so [y_eval_base[i]] is read only for a prediction equal to
    [one] or [not_one]. *)
Definition misclassified_step (one not_one : string)
    (y_eval_base : list string) (tweets_eval : list Tweet)
    (printed : list Row) (ip : nat * string) : option (list Row) :=
  let '(i, prediction) := ip in
  first ← (if Py.str_eq prediction one
           then g ← y_eval_base !! i; Some (negb (Py.str_eq g one))
           else Some false);
  test ← (if first : bool then Some true
          else if Py.str_eq prediction not_one
               then g ← y_eval_base !! i; Some (Py.str_eq g one)
               else Some false);
  if test : bool then
    start ← tweets_eval !! i;
    let root := root_of start in
    g ← y_eval_base !! i;
    t ← tweets_eval !! i;
    Some (printed ++ [(g, prediction, get_parseable_tweet_text t,
                       get_parseable_tweet_text root)])
  else Some printed.

(** [for i, prediction in enumerate(predictions): ...], returning the rows
    printed. *)
Definition misclassified (one not_one : string)
    (y_eval_base : list string) (tweets_eval : list Tweet) (predictions : list string)
  : option (list Row) :=
  Py.for_each (misclassified_step one not_one y_eval_base tweets_eval)
              (enumerate predictions) [].

(** [results[tweets_eval[i]['id_str']] = prediction] *)
Definition results_step (tweets_eval : list Tweet)
    (results : gmap string string) (ip : nat * string) : option (gmap string string) :=
  let '(i, prediction) := ip in
  t ← tweets_eval !! i;
  Some (<[id_str t := prediction]> results).

(** Lines 352-356: the dict of tweet id to predicted class. *)
Definition results_dict (tweets_eval : list Tweet) (predictions : list string)
  : option (gmap string string) :=
  Py.for_each (results_step tweets_eval) (enumerate predictions) ∅.

End Sdqc.

(** The prediction disagrees with the gold label on the class [one]. *)
Definition is_misclassified (one not_one gold prediction : string) : bool :=
  (Py.str_eq prediction one && negb (Py.str_eq gold one))
  || (Py.str_eq prediction not_one && Py.str_eq gold one).

(** The rows a listing loop prints when it ends normally: one row for each
    index whose prediction is misclassified, in the order of the indices. *)
Definition misclassified_rows (text : Tweet -> string) (one not_one : string)
    (y_eval_base : list string) (tweets_eval : list Tweet) (predictions : list string)
  : list Row :=
  (fun gpt : string * (string * Tweet) =>
     (gpt.1, gpt.2.1, text gpt.2.2, text (root_of gpt.2.2)))
  <$> filter (fun gpt => is_misclassified one not_one gpt.1 gpt.2.1 = true)
             (zip y_eval_base (zip predictions tweets_eval)).

(** Ids for the examples, with a clash: every tweet but the one with id 3
    answers ['5']. *)
Definition sample_id_str (t : Tweet) : string :=
  if Z.eqb (tweet_id t) 3 then "7" else "5".

(** *** The cache of [filter_tweets] after a whole list *)
Definition final_cache (text : Tweet -> string) (c : gmap Z string) (tweets : list Tweet)
  : gmap Z string :=
  foldl (next_cache text) c tweets.

(** *** The ensemble loop seen index by index *)

(** What the loop body needs at index [i] to end normally. *)
Definition combine_step_ok (base deny query : list string) (i : nat) : Prop :=
  exists b q, base !! i = Some b /\ query !! i = Some q /\
              (q = "query" \/ is_Some (deny !! i)).

(** The labels appended at index [i]. *)
Definition wo_at (base query : list string) (i : nat) : string :=
  without_deny_label (default "" (base !! i)) (default "" (query !! i)).

Definition w_at (base deny query : list string) (i : nat) : string :=
  with_deny_label (default "" (base !! i)) (default "" (deny !! i))
                  (default "" (query !! i)).

(** *** Sample data

    A stand-in for the library score, used in the examples only on pairs of
    texts that are identical (score 1) or share no term (score 0). *)
Definition sample_similarity (root_text tweet_text : string) : option Q :=
  if Py.str_eq root_text tweet_text then Some 1%Q else Some 0%Q.

Definition tweet_R : Tweet := MkTweet 1 "Breaking news: X happened" None.
Definition tweet_A : Tweet := MkTweet 2 "Is that true?" (Some tweet_R).
Definition tweet_B : Tweet := MkTweet 3 "No it's not true" (Some tweet_R).
Definition tweet_C : Tweet := MkTweet 4 "lol same" (Some tweet_R).
Definition tweet_D : Tweet := MkTweet 5 "Breaking news: X happened" (Some tweet_A).
Definition tweet_E : Tweet := MkTweet 6 "lol  same" (Some tweet_R).


Definition sample_tweets : list Tweet :=
  [tweet_R; tweet_A; tweet_B; tweet_C; tweet_D; tweet_E].

Definition sample_base : list string := ["comment"; "support"; "deny"; "support"].
Definition sample_deny : list string := ["deny"; "not_deny"; "deny"; "deny"].
Definition sample_deny' : list string := ["not_deny"; "deny"; "not_deny"; "not_deny"].
Definition sample_query : list string := ["query"; "query"; "not_query"; "not_query"].
Definition sample_gold : list string := ["comment"; "query"; "deny"; "deny"].
Definition sample_wo : list string := ["comment"; "query"; "deny"; "support"].
Definition sample_w : list string := ["query"; "query"; "deny"; "deny"].

(** An evaluation set in which every class occurs. *)
Definition eval_gold : list string := ["comment"; "support"; "deny"; "query"].
Definition eval_base : list string := ["comment"; "support"; "comment"; "support"].
Definition eval_deny : list string := ["not_deny"; "not_deny"; "deny"; "not_deny"].
Definition eval_query : list string := ["not_query"; "not_query"; "not_query"; "query"].
Definition eval_wo : list string := ["comment"; "support"; "comment"; "query"].
Definition eval_w : list string := ["comment"; "support"; "deny"; "query"].
Definition silent_deny : list string := ["not_deny"; "not_deny"; "not_deny"; "not_deny"].
Definition silent_query : list string :=
  ["not_query"; "not_query"; "not_query"; "not_query"].

(** * Properties *)

Example combine_example :
  combine ["comment"; "support"; "deny"; "comment"]
          ["deny"; "not_deny"; "deny"; "not_deny"]
          ["query"; "query"; "not_query"; "not_query"]
  = Some (["comment"; "query"; "deny"; "comment"],
          ["query"; "query"; "deny"; "comment"]).
Proof. reflexivity. Qed.

Example split_space_examples :
  Py.split_space "lol same" = ["lol"; "same"] /\
  Py.split_space "lol  same" = ["lol"; ""; "same"] /\
  Py.split_space "" = [""] /\
  Py.split_space " a " = [""; "a"; ""] /\
  whitespace_tokens "lol  same" = ["lol"; "same"] /\
  whitespace_tokens " Is  that true? " = ["Is"; "that"; "true?"].
Proof. repeat split; reflexivity. Qed.

Example filter_example :
  filter_tweets tweet_raw_text sample_similarity true (9 # 10)
    [tweet_R; tweet_A; tweet_B; tweet_C; tweet_D; tweet_E]
  = Some [tweet_R; tweet_A; tweet_B; tweet_E].
Proof. vm_compute. reflexivity. Qed.

(** ** Strings and scores *)

Lemma str_eq_true (a b : string) : Py.str_eq a b = true <-> a = b.
Proof. apply String.eqb_eq. Qed.

Lemma str_eq_false (a b : string) : Py.str_eq a b = false <-> a <> b.
Proof. apply String.eqb_neq. Qed.

Lemma format_not_fresh (one : string) : Py.format_not one <> one.
Proof.
  unfold Py.format_not. intros H.
  apply (f_equal String.length) in H.
  change (S (S (S (S (String.length one)))) = String.length one) in H. lia.
Qed.

Lemma lt_spec (x y : Q) : Py.lt x y = true <-> (x < y)%Q.
Proof. unfold Py.lt, Qlt. apply Z.ltb_lt. Qed.

Lemma lt_false_spec (x y : Q) : Py.lt x y = false <-> (y <= x)%Q.
Proof. unfold Py.lt, Qle. apply Z.ltb_ge. Qed.

(** ** Label Relabeler *)

Lemma one_vs_rest_label_target (one : string) :
  one_vs_rest_label one one = one.
Proof. unfold one_vs_rest_label. by rewrite (proj2 (str_eq_true one one)). Qed.

Lemma one_vs_rest_label_other (one label : string) :
  label <> one -> one_vs_rest_label one label = Py.format_not one.
Proof.
  intros Hne. unfold one_vs_rest_label.
  by rewrite (proj2 (str_eq_false label one)).
Qed.

Lemma one_vs_rest_label_cases (one label : string) :
  (label = one /\ one_vs_rest_label one label = one) \/
  (label <> one /\ one_vs_rest_label one label = Py.format_not one).
Proof.
  destruct (decide (label = one)) as [->|Hne].
  - left. split; [done | apply one_vs_rest_label_target].
  - right. split; [done | by apply one_vs_rest_label_other].
Qed.

Lemma one_vs_rest_label_idem (one label : string) :
  one_vs_rest_label one (one_vs_rest_label one label) = one_vs_rest_label one label.
Proof.
  destruct (one_vs_rest_label_cases one label) as [[_ ->]|[_ ->]].
  - apply one_vs_rest_label_target.
  - apply one_vs_rest_label_other, format_not_fresh.
Qed.

(** The loop stores, under every id of the input and under no other, the
    relabelled gold label. *)
Lemma generate_one_vs_rest_lookup (annotations : gmap string string) one tweet_id :
  generate_one_vs_rest_annotations annotations one !! tweet_id
  = one_vs_rest_label one <$> annotations !! tweet_id.
Proof.
  unfold generate_one_vs_rest_annotations.
  apply (map_fold_weak_ind
           (fun (r : gmap string string) (m : gmap string string) =>
              r !! tweet_id = one_vs_rest_label one <$> m !! tweet_id)).
  - by rewrite !lookup_empty.
  - intros i x m r _ IH.
    destruct (decide (i = tweet_id)) as [->|Hne].
    + by rewrite !lookup_insert_eq.
    + by rewrite !lookup_insert_ne.
Qed.

(** ** Ensemble Combiner *)

Section EnsembleFacts.

Variables base deny query : list string.

Lemma combine_step_defined acc i b d q :
  base !! i = Some b -> deny !! i = Some d -> query !! i = Some q ->
  combine_step base deny query acc i
  = Some (acc.1 ++ [without_deny_label b q], acc.2 ++ [with_deny_label b d q]).
Proof.
  intros Hb Hd Hq. destruct acc as [wo w].
  unfold combine_step, without_deny_label, with_deny_label.
  rewrite Hb, Hq, Hd. simpl.
  destruct (Py.str_eq b "comment"), (Py.str_eq q "query"), (Py.str_eq d "deny");
    simpl; rewrite ?Hb; reflexivity.
Qed.

Hypothesis deny_length : length deny = length base.
Hypothesis query_length : length query = length base.

Lemma wo_deny_all_length : length (wo_deny_all base query) = length base.
Proof using query_length.
  clear deny_length. unfold wo_deny_all. rewrite length_zip_with. lia.
Qed.

Lemma w_deny_all_length : length (w_deny_all base deny query) = length base.
Proof. unfold w_deny_all. rewrite length_zip_with, length_zip. lia. Qed.

Lemma combine_loop n : forall k wo w,
  k + n <= length base ->
  Py.for_each (combine_step base deny query) (seq k n) (wo, w)
  = Some (wo ++ take n (drop k (wo_deny_all base query)),
          w ++ take n (drop k (w_deny_all base deny query))).
Proof.
  induction n as [|n IH]; intros k wo w Hk; cbn [seq Py.for_each].
  - by rewrite !take_0, !app_nil_r.
  - destruct (lookup_lt_is_Some_2 base k) as [b Hb]; [lia|].
    destruct (lookup_lt_is_Some_2 deny k) as [d Hd]; [lia|].
    destruct (lookup_lt_is_Some_2 query k) as [q Hq]; [lia|].
    rewrite (combine_step_defined (wo, w) k b d q Hb Hd Hq). cbn [fst snd].
    rewrite IH by lia.
    assert (Hwo : wo_deny_all base query !! k = Some (without_deny_label b q)).
    { unfold wo_deny_all. rewrite lookup_zip_with, Hb. simpl. by rewrite Hq. }
    assert (Hw : w_deny_all base deny query !! k = Some (with_deny_label b d q)).
    { unfold w_deny_all. rewrite lookup_zip_with, Hb. simpl.
      rewrite lookup_zip_with, Hd. simpl. by rewrite Hq. }
    rewrite (drop_S _ _ _ Hwo), (drop_S _ _ _ Hw). cbn [take].
    by rewrite <- !app_assoc.
Qed.

Lemma combine_defined :
  combine base deny query = Some (wo_deny_all base query, w_deny_all base deny query).
Proof.
  unfold combine, Py.range. rewrite combine_loop by lia. simpl.
  rewrite !drop_0.
  rewrite !take_ge;
    [done | rewrite w_deny_all_length; lia | rewrite wo_deny_all_length; lia].
Qed.

End EnsembleFacts.

Lemma without_deny_label_cases (b q : string) :
  (b = "comment" -> without_deny_label b q = "comment") /\
  (b <> "comment" -> q = "query" -> without_deny_label b q = "query") /\
  (b <> "comment" -> q <> "query" -> without_deny_label b q = b).
Proof.
  unfold without_deny_label. repeat split.
  - intros Hb. by rewrite (proj2 (str_eq_true _ _) Hb).
  - intros Hb Hq.
    by rewrite (proj2 (str_eq_false _ _) Hb), (proj2 (str_eq_true _ _) Hq).
  - intros Hb Hq.
    by rewrite (proj2 (str_eq_false _ _) Hb), (proj2 (str_eq_false _ _) Hq).
Qed.

Lemma with_deny_label_cases (b d q : string) :
  (q = "query" -> with_deny_label b d q = "query") /\
  (q <> "query" -> d = "deny" -> with_deny_label b d q = "deny") /\
  (q <> "query" -> d <> "deny" -> with_deny_label b d q = b).
Proof.
  unfold with_deny_label. repeat split.
  - intros Hq. by rewrite (proj2 (str_eq_true _ _) Hq).
  - intros Hq Hd.
    by rewrite (proj2 (str_eq_false _ _) Hq), (proj2 (str_eq_true _ _) Hd).
  - intros Hq Hd.
    by rewrite (proj2 (str_eq_false _ _) Hq), (proj2 (str_eq_false _ _) Hd).
Qed.


(** C1. Over one evaluation set (the three prediction sequences have its
    length) the loop ends normally, and the without-deny sequence holds at
    every position: 'comment' when Base predicts 'comment', whatever the two
    detectors predict; otherwise 'query' when the Query-detector predicts
    'query'; otherwise Base's prediction. *)
Theorem without_deny_strategy (base deny query : list string) :
  length deny = length base ->
  length query = length base ->
  exists wo w,
    combine base deny query = Some (wo, w) /\
    length wo = length base /\
    forall i b q,
      base !! i = Some b -> query !! i = Some q ->
      (b = "comment" -> wo !! i = Some "comment") /\
      (b <> "comment" -> q = "query" -> wo !! i = Some "query") /\
      (b <> "comment" -> q <> "query" -> wo !! i = Some b).
Proof.
  intros Hd Hq. exists (wo_deny_all base query), (w_deny_all base deny query).
  split; [by apply combine_defined|].
  split; [by apply wo_deny_all_length|].
  intros i b q Hb Hqi.
  assert (Hwo : wo_deny_all base query !! i = Some (without_deny_label b q)).
  { unfold wo_deny_all. rewrite lookup_zip_with, Hb. simpl. by rewrite Hqi. }
  rewrite Hwo.
  destruct (without_deny_label_cases b q) as (H1 & H2 & H3).
  repeat split; intros; f_equal; auto.
Qed.

Lemma without_deny_strategy_witness :
  length sample_deny = length sample_base /\
  length sample_query = length sample_base /\
  exists wo w,
    combine sample_base sample_deny sample_query = Some (wo, w) /\
    length wo = length sample_base /\
    forall i b q,
      sample_base !! i = Some b -> sample_query !! i = Some q ->
      (b = "comment" -> wo !! i = Some "comment") /\
      (b <> "comment" -> q = "query" -> wo !! i = Some "query") /\
      (b <> "comment" -> q <> "query" -> wo !! i = Some b).
Proof.
  split; [reflexivity|]. split; [reflexivity|].
  apply (without_deny_strategy sample_base sample_deny sample_query); reflexivity.
Defined.

(** C2. Over one evaluation set the with-deny sequence holds at every
    position: 'query' when the Query-detector predicts 'query'; otherwise
    'deny' when the Deny-detector predicts 'deny'; otherwise Base's
    prediction. *)
Theorem with_deny_strategy (base deny query : list string) :
  length deny = length base ->
  length query = length base ->
  exists wo w,
    combine base deny query = Some (wo, w) /\
    length w = length base /\
    forall i b d q,
      base !! i = Some b -> deny !! i = Some d -> query !! i = Some q ->
      (q = "query" -> w !! i = Some "query") /\
      (q <> "query" -> d = "deny" -> w !! i = Some "deny") /\
      (q <> "query" -> d <> "deny" -> w !! i = Some b).
Proof.
  intros Hd Hq. exists (wo_deny_all base query), (w_deny_all base deny query).
  split; [by apply combine_defined|].
  split; [by apply w_deny_all_length|].
  intros i b d q Hb Hdi Hqi.
  assert (Hw : w_deny_all base deny query !! i = Some (with_deny_label b d q)).
  { unfold w_deny_all. rewrite lookup_zip_with, Hb. simpl.
    rewrite lookup_zip_with, Hdi. simpl. by rewrite Hqi. }
  rewrite Hw.
  destruct (with_deny_label_cases b d q) as (H1 & H2 & H3).
  repeat split; intros; f_equal; auto.
Qed.

Lemma with_deny_strategy_witness :
  length sample_deny = length sample_base /\
  length sample_query = length sample_base /\
  exists wo w,
    combine sample_base sample_deny sample_query = Some (wo, w) /\
    length w = length sample_base /\
    forall i b d q,
      sample_base !! i = Some b -> sample_deny !! i = Some d ->
      sample_query !! i = Some q ->
      (q = "query" -> w !! i = Some "query") /\
      (q <> "query" -> d = "deny" -> w !! i = Some "deny") /\
      (q <> "query" -> d <> "deny" -> w !! i = Some b).
Proof.
  split; [reflexivity|]. split; [reflexivity|].
  apply (with_deny_strategy sample_base sample_deny sample_query); reflexivity.
Defined.

(** C9. Two runs over one evaluation set that share the Base and
    Query-detector predictions and differ in the Deny-detector predictions
    produce the same without-deny sequence, with the same accuracy against
    any gold labels. *)
Theorem without_deny_ignores_deny (base deny1 deny2 query gold : list string) :
  length deny1 = length base ->
  length deny2 = length base ->
  length query = length base ->
  exists wo1 w1 wo2 w2,
    combine base deny1 query = Some (wo1, w1) /\
    combine base deny2 query = Some (wo2, w2) /\
    wo1 = wo2 /\
    accuracy_score gold wo1 = accuracy_score gold wo2.
Proof.
  intros H1 H2 Hq.
  exists (wo_deny_all base query), (w_deny_all base deny1 query),
         (wo_deny_all base query), (w_deny_all base deny2 query).
  repeat split; by apply combine_defined.
Qed.

Lemma without_deny_ignores_deny_witness :
  exists wo1 w1 wo2 w2,
    combine sample_base sample_deny sample_query = Some (wo1, w1) /\
    combine sample_base sample_deny' sample_query = Some (wo2, w2) /\
    wo1 = wo2 /\
    accuracy_score sample_gold wo1 = accuracy_score sample_gold wo2.
Proof.
  apply (without_deny_ignores_deny sample_base sample_deny sample_deny'
           sample_query sample_gold); reflexivity.
Defined.

(** C3. The choice between the two outputs depends on the two accuracy
    scores alone: with-deny is chosen exactly when its score is strictly
    above the without-deny score, and the returned sequence is then the
    with-deny one; on equal scores, and whenever with-deny is not strictly
    better, the without-deny sequence is returned. *)
Theorem strategy_selection (gold wo w : list string) (a_wo a_w : Q) :
  accuracy_score gold wo = Some a_wo ->
  accuracy_score gold w = Some a_w ->
  (best_strategy gold wo w = Some WithDeny <-> (a_wo < a_w)%Q) /\
  ((a_wo < a_w)%Q -> best_predictions gold wo w = Some w) /\
  (~ (a_wo < a_w)%Q -> best_predictions gold wo w = Some wo) /\
  ((a_wo == a_w)%Q ->
     best_strategy gold wo w = Some WithoutDeny /\
     best_predictions gold wo w = Some wo).
Proof.
  intros Hwo Hw. unfold best_predictions, best_strategy.
  rewrite Hwo, Hw. simpl.
  destruct (Py.lt a_wo a_w) eqn:Hlt; simpl.
  - apply lt_spec in Hlt.
    split; [done|]. split; [done|]. split; [done|].
    intros Heq. rewrite Heq in Hlt. by apply Qlt_irrefl in Hlt.
  - assert (Hnlt : ~ (a_wo < a_w)%Q).
    { intros H. apply lt_spec in H. congruence. }
    split; [split; [discriminate | done]|].
    split; [done|]. split; done.
Qed.

Lemma strategy_selection_witness :
  accuracy_score sample_gold sample_wo = Some (3 # 4) /\
  accuracy_score sample_gold sample_w = Some (3 # 4) /\
  (best_strategy sample_gold sample_wo sample_w = Some WithDeny <-> (3 # 4 < 3 # 4)%Q) /\
  ((3 # 4 < 3 # 4)%Q -> best_predictions sample_gold sample_wo sample_w = Some sample_w) /\
  (~ (3 # 4 < 3 # 4)%Q ->
     best_predictions sample_gold sample_wo sample_w = Some sample_wo) /\
  ((3 # 4 == 3 # 4)%Q ->
     best_strategy sample_gold sample_wo sample_w = Some WithoutDeny /\
     best_predictions sample_gold sample_wo sample_w = Some sample_wo).
Proof.
  split; [reflexivity|]. split; [reflexivity|].
  apply (strategy_selection sample_gold sample_wo sample_w (3 # 4) (3 # 4));
    reflexivity.
Defined.

Example selection_examples :
  combine sample_base sample_deny sample_query = Some (sample_wo, sample_w) /\
  best_predictions sample_gold sample_wo sample_w = Some sample_wo /\
  combine eval_base eval_deny eval_query = Some (eval_wo, eval_w) /\
  best_predictions eval_gold eval_wo eval_w = Some eval_w /\
  best_predictions [] [] [] = None /\
  combine ["support"] ["deny"] [] = None.
Proof. repeat split; reflexivity. Qed.

(** C5, as stated, fails: when no message of the mapping carries the target
    label, the target string does not occur among the output values. Here
    the mapping has one message, labelled 'comment', and the target is
    'deny': the only output value is 'not_deny'. *)
Lemma relabel_values_counterexample :
  ~ (forall v,
       dict_value (generate_one_vs_rest_annotations {["1" := "comment"]} "deny") v
       <-> v = "deny" \/ v = "not_deny").
Proof.
  intros H. destruct (proj2 (H "deny")) as [k Hk]; [by left|].
  rewrite generate_one_vs_rest_lookup in Hk.
  destruct (decide (k = "1")) as [->|Hne].
  - rewrite lookup_singleton_eq in Hk. simpl in Hk. discriminate.
  - rewrite lookup_singleton_ne in Hk by done. discriminate.
Qed.

(** C5, amended. The output has an entry for exactly the ids of the input;
    the entry is the target when the gold label equals the target and
    'not_<target>' otherwise; the two strings differ; every output value is
    one of them; the target occurs among the output values exactly when
    some message is labelled with it, and 'not_<target>' exactly when some
    message is labelled otherwise. *)
Theorem relabel_one_vs_rest (annotations : gmap string string) (one : string) :
  let out := generate_one_vs_rest_annotations annotations one in
  (forall tweet_id, out !! tweet_id = None <-> annotations !! tweet_id = None) /\
  (forall tweet_id gold, annotations !! tweet_id = Some gold ->
     (gold = one -> out !! tweet_id = Some one) /\
     (gold <> one -> out !! tweet_id = Some ("not_" +:+ one))) /\
  one <> "not_" +:+ one /\
  (forall v, dict_value out v -> v = one \/ v = "not_" +:+ one) /\
  (dict_value out one <-> exists tweet_id, annotations !! tweet_id = Some one) /\
  (dict_value out ("not_" +:+ one) <->
     exists tweet_id gold, annotations !! tweet_id = Some gold /\ gold <> one).
Proof.
  intros out. subst out.
  change ("not_" +:+ one) with (Py.format_not one).
  pose proof (format_not_fresh one) as Hfresh.
  split; [|split; [|split; [|split; [|split]]]].
  - intros k. rewrite generate_one_vs_rest_lookup.
    destruct (annotations !! k); simpl; split; intros; done.
  - intros k gold Hk. rewrite generate_one_vs_rest_lookup, Hk. simpl.
    split; intros Hg.
    + subst gold. by rewrite one_vs_rest_label_target.
    + by rewrite one_vs_rest_label_other.
  - congruence.
  - intros v [k Hk]. rewrite generate_one_vs_rest_lookup in Hk.
    destruct (annotations !! k) as [gold|]; simpl in Hk; [|done].
    injection Hk as <-.
    destruct (one_vs_rest_label_cases one gold) as [[_ ->]|[_ ->]]; auto.
  - split.
    + intros [k Hk]. exists k. rewrite generate_one_vs_rest_lookup in Hk.
      destruct (annotations !! k) as [gold|]; simpl in Hk; [|done].
      injection Hk as Hk.
      destruct (one_vs_rest_label_cases one gold) as [[-> _]|[_ Hl]]; [done|].
      congruence.
    + intros [k Hk]. exists k. rewrite generate_one_vs_rest_lookup, Hk. simpl.
      by rewrite one_vs_rest_label_target.
  - split.
    + intros [k Hk]. exists k. rewrite generate_one_vs_rest_lookup in Hk.
      destruct (annotations !! k) as [gold|]; simpl in Hk; [|done].
      injection Hk as Hk. exists gold. split; [done|].
      intros ->. rewrite one_vs_rest_label_target in Hk. congruence.
    + intros (k & gold & Hk & Hne). exists k.
      rewrite generate_one_vs_rest_lookup, Hk. simpl.
      by rewrite one_vs_rest_label_other.
Qed.

(** C10. Relabelling the relabeller's output with the same target changes
    nothing. *)
Theorem relabel_idempotent (annotations : gmap string string) (one : string) :
  generate_one_vs_rest_annotations
    (generate_one_vs_rest_annotations annotations one) one
  = generate_one_vs_rest_annotations annotations one.
Proof.
  apply map_eq. intros k. rewrite !generate_one_vs_rest_lookup.
  destruct (annotations !! k) as [gold|]; simpl; [|done].
  by rewrite one_vs_rest_label_idem.
Qed.

Example relabel_example :
  generate_one_vs_rest_annotations {["A" := "query"; "B" := "deny"]} "deny"
    = {["A" := "not_deny"; "B" := "deny"]} /\
  generate_one_vs_rest_annotations {["A" := "query"; "B" := "deny"]} "query"
    = {["A" := "query"; "B" := "not_query"]}.
Proof. split; vm_compute; reflexivity. Qed.

(** ** Tweets and roots *)

Lemma Tweet_eqb_refl (a : Tweet) : Tweet_eqb a a = true.
Proof.
  induction a as [id text|id text parent IH] using Tweet_parent_ind; simpl;
    rewrite Z.eqb_refl, (proj2 (str_eq_true text text) eq_refl); done.
Qed.

Lemma Tweet_eqb_sound (a : Tweet) : forall b, Tweet_eqb a b = true -> a = b.
Proof.
  induction a as [id text|id text parent IH] using Tweet_parent_ind;
    intros [id' text' [p'|]]; simpl; intros H;
    apply andb_true_iff in H as [H Hp]; apply andb_true_iff in H as [Hid Htext];
    apply Z.eqb_eq in Hid; apply str_eq_true in Htext; subst;
    try discriminate; [done|].
  by rewrite (IH p' Hp).
Qed.

Lemma Tweet_eqb_eq (a b : Tweet) : Tweet_eqb a b = true <-> a = b.
Proof.
  split; [apply Tweet_eqb_sound|]. intros ->. apply Tweet_eqb_refl.
Qed.

#[global] Instance Tweet_eq_dec : EqDecision Tweet.
Proof.
  intros a b. destruct (Tweet_eqb a b) eqn:E.
  - left. by apply Tweet_eqb_eq.
  - right. intros H. apply Tweet_eqb_eq in H. congruence.
Defined.

Lemma root_of_has_no_parent (t : Tweet) : tweet_parent (root_of t) = None.
Proof.
  induction t as [id text|id text parent IH] using Tweet_parent_ind; simpl; done.
Qed.

Lemma root_of_root (t : Tweet) : tweet_parent t = None -> root_of t = t.
Proof. destruct t as [id text [p|]]; simpl; [discriminate | done]. Qed.

(** The walk ends at the tweet it started from exactly when that tweet has
    no parent. *)
Lemma root_of_fixed (t : Tweet) : root_of t = t <-> tweet_parent t = None.
Proof.
  split; [|apply root_of_root].
  intros H. rewrite <- H. apply root_of_has_no_parent.
Qed.

Lemma root_test_true (t : Tweet) : Tweet_eqb (root_of t) t = true <-> root_of t = t.
Proof. apply Tweet_eqb_eq. Qed.

Lemma root_test_false (t : Tweet) : Tweet_eqb (root_of t) t = false <-> root_of t <> t.
Proof.
  rewrite <- root_test_true. destruct (Tweet_eqb (root_of t) t); split; congruence.
Qed.


Lemma split_space_length (s : string) :
  length (Py.split_space s) = S (count_spaces s).
Proof.
  induction s as [|c rest IH]; simpl; [done|].
  destruct (Ascii.eqb c " "%char); simpl; [by rewrite IH|].
  destruct (Py.split_space rest); simpl in *; lia.
Qed.

(** ** Training Filter *)

Lemma filter_agree {A : Type} (P1 P2 : A -> Prop)
    `{!forall x, Decision (P1 x)} `{!forall x, Decision (P2 x)} (l : list A) :
  (forall x, x ∈ l -> (P1 x <-> P2 x)) -> filter P1 l = filter P2 l.
Proof.
  induction l as [|a l IH]; intros Hagree; [done|].
  rewrite !filter_cons.
  assert (Ha : P1 a <-> P2 a) by (apply Hagree, list_elem_of_here).
  rewrite IH by (intros x Hx; apply Hagree; by apply list_elem_of_further).
  destruct (decide (P1 a)), (decide (P2 a)); tauto.
Qed.

Section FilterFacts.

Variable text : Tweet -> string.
Variable sim : string -> string -> option Q.
Variable filter_short : bool.
Variable threshold : Q.

Local Abbreviation step := (filter_step text sim filter_short threshold).
Local Abbreviation decide_at := (decision text sim filter_short threshold).
Local Abbreviation cache_after := (next_cache text).
Local Abbreviation kept c := (fun t : Tweet => decide_at c t = Some true).

(** The loop body, split into what it decides and what it caches. *)
Lemma filter_step_decision (c : gmap Z string) (acc : list Tweet) (t : Tweet) :
  step (c, acc) t
  = d ← decide_at c t; Some (cache_after c t, if d : bool then acc ++ [t] else acc).
Proof.
  unfold filter_step, decision, next_cache, root_text_at.
  destruct (Tweet_eqb (root_of t) t); [done|].
  destruct (c !! tweet_id (root_of t)) as [cached|]; simpl;
    (destruct (filter_short && too_short (text t)); [done|]);
    match goal with |- context [sim ?a ?b] => destruct (sim a b) as [s|] end;
    simpl; [destruct (Py.lt s threshold)| |destruct (Py.lt s threshold)|]; done.
Qed.

Lemma next_cache_grows c t : c ⊆ cache_after c t.
Proof.
  unfold next_cache, root_text_at.
  destruct (Tweet_eqb (root_of t) t); [done|].
  destruct (c !! tweet_id (root_of t)) as [cached|] eqn:Hc; simpl.
  - by rewrite insert_id.
  - by apply insert_subseteq.
Qed.

Lemma next_cache_root c t :
  root_of t <> t ->
  cache_after c t !! tweet_id (root_of t) = Some (root_text_at text c t).
Proof.
  intros Hne. unfold next_cache.
  rewrite (proj2 (root_test_false t) Hne). apply lookup_insert_eq.
Qed.

(** Once the body ran on [t], no later cache changes the root text used
    for [t], hence its decision. *)
Lemma decision_stable c c' t :
  cache_after c t ⊆ c' -> decide_at c' t = decide_at c t.
Proof.
  intros Hsub. unfold decision.
  destruct (Tweet_eqb (root_of t) t) eqn:Hroot; [done|].
  apply root_test_false in Hroot.
  assert (Hrt : root_text_at text c' t = root_text_at text c t).
  { unfold root_text_at at 1.
    by rewrite (lookup_weaken _ _ _ _ (next_cache_root c t Hroot) Hsub). }
  by rewrite Hrt.
Qed.

(** A normal end of the loop: the cache only grew, and the accumulator
    gained exactly the tweets the final cache decides to keep. *)
Lemma filter_loop_spec tweets : forall c acc c' acc',
  Py.for_each step tweets (c, acc) = Some (c', acc') ->
  c ⊆ c' /\
  acc' = acc ++ filter (kept c') tweets /\
  Forall (fun t => is_Some (decide_at c' t)) tweets.
Proof.
  induction tweets as [|t tweets IH]; intros c acc c' acc' Hrun;
    cbn [Py.for_each] in Hrun.
  - injection Hrun as <- <-. by rewrite app_nil_r.
  - rewrite filter_step_decision in Hrun.
    destruct (decide_at c t) as [d|] eqn:Hd; simpl in Hrun; [|done].
    destruct (IH _ _ _ _ Hrun) as (Hsub & Hacc & Hall).
    assert (Hd' : decide_at c' t = Some d) by (by rewrite (decision_stable c c' t Hsub)).
    split; [by etrans; [apply next_cache_grows|]|].
    split; [|constructor; [by rewrite Hd'|done]].
    rewrite Hacc, filter_cons. destruct d.
    + rewrite decide_True by done. by rewrite <- app_assoc.
    + rewrite decide_False by (rewrite Hd'; discriminate). done.
Qed.

(** Every cached text was read from the root of a tweet met by the loop. *)
Lemma filter_loop_cache tweets : forall c acc c' acc',
  Py.for_each step tweets (c, acc) = Some (c', acc') ->
  forall k x, c' !! k = Some x ->
    c !! k = Some x \/
    exists t, t ∈ tweets /\ tweet_id (root_of t) = k /\ x = text (root_of t).
Proof.
  induction tweets as [|t tweets IH]; intros c acc c' acc' Hrun k x Hk;
    cbn [Py.for_each] in Hrun.
  - injection Hrun as <- <-. by left.
  - rewrite filter_step_decision in Hrun.
    destruct (decide_at c t) as [d|] eqn:Hd; simpl in Hrun; [|done].
    destruct (IH _ _ _ _ Hrun k x Hk) as [Hc|(t' & Hin & Hid & Hx)].
    + unfold next_cache in Hc.
      destruct (Tweet_eqb (root_of t) t); [by left|].
      destruct (decide (tweet_id (root_of t) = k)) as [<-|Hne].
      * rewrite lookup_insert_eq in Hc. injection Hc as <-.
        unfold root_text_at.
        destruct (c !! tweet_id (root_of t)) as [cached|] eqn:Hc; simpl.
        -- by left.
        -- right. exists t. split; [apply list_elem_of_here | done].
      * rewrite lookup_insert_ne in Hc by done. by left.
    + right. exists t'. split; [by apply list_elem_of_further | done].
Qed.

Lemma filter_tweets_run tweets out :
  filter_tweets text sim filter_short threshold tweets = Some out ->
  exists c, Py.for_each step tweets (∅, []) = Some (c, out).
Proof.
  unfold filter_tweets. intros H.
  destruct (Py.for_each step tweets (∅, [])) as [[c out']|]; simpl in H; [|done].
  injection H as <-. by exists c.
Qed.

(** With ids that identify root texts, the cache is transparent: each
    tweet is judged against the text of its own root. *)
Lemma filter_tweets_spec tweets out :
  root_ids_unique text tweets ->
  filter_tweets text sim filter_short threshold tweets = Some out ->
  out = filter (kept ∅) tweets /\
  Forall (fun t => is_Some (decide_at ∅ t)) tweets.
Proof.
  intros Huniq Hrun. destruct (filter_tweets_run _ _ Hrun) as [c Hc].
  destruct (filter_loop_spec _ _ _ _ _ Hc) as (_ & Hout & Hall).
  assert (Hsame : forall t, t ∈ tweets -> decide_at c t = decide_at ∅ t).
  { intros t Ht. unfold decision.
    destruct (Tweet_eqb (root_of t) t); [done|].
    assert (Hrt : root_text_at text c t = root_text_at text ∅ t).
    { unfold root_text_at. rewrite lookup_empty. simpl.
      destruct (c !! tweet_id (root_of t)) as [x|] eqn:Hx; simpl; [|done].
      destruct (filter_loop_cache _ _ _ _ _ Hc _ _ Hx) as [Hemp|(t' & Hin & Hid & ->)].
      - by rewrite lookup_empty in Hemp.
      - by apply Huniq. }
    by rewrite Hrt. }
  split.
  - rewrite Hout. simpl. apply filter_agree.
    intros t Ht. by rewrite (Hsame t Ht).
  - apply list.Forall_forall. intros t Ht. rewrite <- (Hsame t Ht).
    by apply (proj1 (list.Forall_forall _ _) Hall).
Qed.

(** The loop cannot fail when the library call cannot. *)
Lemma filter_tweets_total tweets :
  (forall a b, is_Some (sim a b)) ->
  is_Some (filter_tweets text sim filter_short threshold tweets).
Proof.
  intros Hsim. unfold filter_tweets.
  assert (H : forall st, is_Some (Py.for_each step tweets st)).
  { induction tweets as [|t tweets IH]; intros [c acc]; cbn [Py.for_each]; [done|].
    rewrite filter_step_decision.
    assert (Hd : is_Some (decide_at c t)).
    { unfold decision. destruct (Tweet_eqb (root_of t) t); [done|].
      destruct (filter_short && too_short (text t)); [done|].
      destruct (Hsim (root_text_at text c t) (text t)) as [s ->]. done. }
    destruct Hd as [d ->]. simpl. apply IH. }
  destruct (H (∅, [])) as [[c out] ->]. done.
Qed.

End FilterFacts.


Lemma root_ids_unique_one_thread (text : Tweet -> string) (r : Tweet) (tweets : list Tweet) :
  Forall (fun t => root_of t = r) tweets -> root_ids_unique text tweets.
Proof.
  intros Hall t1 t2 H1 H2 _.
  rewrite (proj1 (list.Forall_forall _ _) Hall t1 H1).
  by rewrite (proj1 (list.Forall_forall _ _) Hall t2 H2).
Qed.

Lemma sample_tweets_unique : root_ids_unique tweet_raw_text sample_tweets.
Proof.
  apply (root_ids_unique_one_thread _ tweet_R). repeat constructor.
Qed.

(** C4. Whatever the settings of the filter and whatever the library
    scores, a message of the input that is the root of its thread (the walk
    up the parent chain ends where it started) is in the output. *)
Theorem root_tweets_retained
    (text : Tweet -> string) (sim : string -> string -> option Q)
    (filter_short : bool) (threshold : Q) (tweets out : list Tweet) (t : Tweet) :
  filter_tweets text sim filter_short threshold tweets = Some out ->
  t ∈ tweets ->
  root_of t = t ->
  t ∈ out.
Proof.
  intros Hrun Hin Hroot. destruct (filter_tweets_run _ _ _ _ _ _ Hrun) as [c Hc].
  destruct (filter_loop_spec _ _ _ _ _ _ _ _ _ Hc) as (_ & -> & _). simpl.
  apply list_elem_of_filter. split; [|done].
  unfold decision. by rewrite (proj2 (root_test_true t) Hroot).
Qed.

Lemma root_tweets_retained_witness :
  filter_tweets tweet_raw_text sample_similarity true 0 sample_tweets = Some [tweet_R] /\
  tweet_R ∈ sample_tweets /\
  root_of tweet_R = tweet_R /\
  tweet_R ∈ [tweet_R].
Proof.
  split; [vm_compute; reflexivity|].
  split; [apply list_elem_of_here|].
  split; [reflexivity|].
  apply (root_tweets_retained tweet_raw_text sample_similarity true 0
           sample_tweets [tweet_R] tweet_R);
    [vm_compute; reflexivity | apply list_elem_of_here | reflexivity].
Defined.

(** C8. The output is a subsequence of the input, and it is the input
    restricted to the retained messages: every occurrence in the input of a
    message that is retained is in the output, in the input's order. *)
Theorem filter_is_subsequence
    (text : Tweet -> string) (sim : string -> string -> option Q)
    (filter_short : bool) (threshold : Q) (tweets out : list Tweet) :
  filter_tweets text sim filter_short threshold tweets = Some out ->
  sublist out tweets /\
  out = filter (fun t => t ∈ out) tweets.
Proof.
  intros Hrun. destruct (filter_tweets_run _ _ _ _ _ _ Hrun) as [c Hc].
  destruct (filter_loop_spec _ _ _ _ _ _ _ _ _ Hc) as (_ & Hout & _).
  simpl in Hout. split.
  - rewrite Hout. apply sublist_filter.
  - rewrite Hout at 1. apply filter_agree. intros x Hx.
    rewrite Hout, list_elem_of_filter. tauto.
Qed.

Lemma filter_is_subsequence_witness :
  filter_tweets tweet_raw_text sample_similarity true (9 # 10) sample_tweets
    = Some [tweet_R; tweet_A; tweet_B; tweet_E] /\
  sublist [tweet_R; tweet_A; tweet_B; tweet_E] sample_tweets /\
  [tweet_R; tweet_A; tweet_B; tweet_E]
    = filter (fun t => t ∈ [tweet_R; tweet_A; tweet_B; tweet_E]) sample_tweets.
Proof.
  split; [vm_compute; reflexivity|].
  apply (filter_is_subsequence tweet_raw_text sample_similarity true (9 # 10)).
  vm_compute. reflexivity.
Defined.




(** C7, as stated, fails: the check counts the pieces between single space
    characters, not the whitespace-separated tokens. The reply 'lol  same'
    (two spaces) has two tokens and three pieces; with [filter_short] set
    and a score below the threshold it is retained. *)
Lemma short_tweets_counterexample :
  root_of tweet_E <> tweet_E /\
  length (whitespace_tokens (tweet_raw_text tweet_E)) < 3 /\
  filter_tweets tweet_raw_text sample_similarity true (9 # 10) [tweet_R; tweet_E]
    = Some [tweet_R; tweet_E] /\
  tweet_E ∈ [tweet_R; tweet_E].
Proof.
  split; [vm_compute; discriminate|].
  split; [vm_compute; lia|].
  split; [vm_compute; reflexivity|].
  apply list_elem_of_In. simpl. tauto.
Qed.

(** C7, amended. With [filter_short] set, a message that is not a root and
    whose text splits at single space characters into fewer than 3 pieces
    (it has fewer than two space characters) is discarded: the loop body
    leaves the output list as it was without calling the library, whatever
    the library would have answered or raised, and the message is not in
    the output. *)
Theorem short_tweets_discarded
    (text : Tweet -> string) (sim : string -> string -> option Q)
    (threshold : Q) (tweets out : list Tweet) (t : Tweet) :
  root_of t <> t ->
  length (Py.split_space (text t)) < 3 ->
  count_spaces (text t) < 2 /\
  (forall c acc,
     filter_step text sim true threshold (c, acc) t
     = Some (next_cache text c t, acc)) /\
  (forall c acc,
     filter_step text sim true threshold (c, acc) t
     = filter_step text (fun _ _ => None) true threshold (c, acc) t) /\
  (filter_tweets text sim true threshold tweets = Some out -> t ∉ out).
Proof.
  intros Hroot Hlen.
  assert (Hshort : too_short (text t) = true) by (by apply Nat.ltb_lt).
  assert (Hdec : forall sim' c, decision text sim' true threshold c t = Some false).
  { intros sim' c. unfold decision.
    by rewrite (proj2 (root_test_false t) Hroot), Hshort. }
  split; [rewrite split_space_length in Hlen; lia|].
  split; [|split].
  - intros c acc. by rewrite filter_step_decision, Hdec.
  - intros c acc. by rewrite !filter_step_decision, !Hdec.
  - intros Hrun. destruct (filter_tweets_run _ _ _ _ _ _ Hrun) as [c Hc].
    destruct (filter_loop_spec _ _ _ _ _ _ _ _ _ Hc) as (_ & -> & _). simpl.
    rewrite list_elem_of_filter, Hdec. intros [? _]. done.
Qed.

Lemma short_tweets_discarded_witness :
  root_of tweet_C <> tweet_C /\
  length (Py.split_space (tweet_raw_text tweet_C)) < 3 /\
  count_spaces (tweet_raw_text tweet_C) < 2 /\
  (forall c acc,
     filter_step tweet_raw_text sample_similarity true (9 # 10) (c, acc) tweet_C
     = Some (next_cache tweet_raw_text c tweet_C, acc)) /\
  (forall c acc,
     filter_step tweet_raw_text sample_similarity true (9 # 10) (c, acc) tweet_C
     = filter_step tweet_raw_text (fun _ _ => None) true (9 # 10) (c, acc) tweet_C) /\
  (filter_tweets tweet_raw_text sample_similarity true (9 # 10) sample_tweets
     = Some [tweet_R; tweet_A; tweet_B; tweet_E] ->
   tweet_C ∉ [tweet_R; tweet_A; tweet_B; tweet_E]).
Proof.
  split; [vm_compute; discriminate|].
  split; [vm_compute; lia|].
  apply (short_tweets_discarded tweet_raw_text sample_similarity (9 # 10)
           sample_tweets [tweet_R; tweet_A; tweet_B; tweet_E] tweet_C);
    [vm_compute; discriminate | vm_compute; lia].
Defined.

(** * Further properties of the module *)

(** ** Loops that may raise *)

Lemma for_each_ext {A S : Type} (f g : S -> A -> option S) (xs : list A) :
  (forall x st, x ∈ xs -> f st x = g st x) ->
  forall st, Py.for_each f xs st = Py.for_each g xs st.
Proof.
  induction xs as [|x xs IH]; intros Hfg st; cbn [Py.for_each]; [done|].
  rewrite (Hfg x st) by apply list_elem_of_here.
  destruct (g st x) as [st'|]; [|done].
  apply IH. intros y st'' Hy. apply Hfg. by apply list_elem_of_further.
Qed.

(** When the success of the body depends on the element only, the loop
    ends normally exactly when the body does on every element. *)
Lemma for_each_is_Some {A S : Type} (body : S -> A -> option S) (ok : A -> Prop)
    (xs : list A) :
  (forall st x, is_Some (body st x) <-> ok x) ->
  forall st, is_Some (Py.for_each body xs st) <-> Forall ok xs.
Proof.
  intros Hok. induction xs as [|x xs IH]; intros st; cbn [Py.for_each].
  - split; [constructor | done].
  - destruct (body st x) as [st'|] eqn:Hb.
    + rewrite IH. split.
      * intros Hall. constructor; [|done]. apply (Hok st). by rewrite Hb.
      * by inversion 1.
    + split; [intros [? ?]; discriminate|]. inversion 1 as [|? ? Hx _]; subst.
      apply (Hok st) in Hx. rewrite Hb in Hx. destruct Hx; discriminate.
Qed.

(** ** Ensemble Combiner: errors and bounds *)

Section EnsembleEdges.

Variables base deny query : list string.

Lemma combine_step_is_Some acc i :
  is_Some (combine_step base deny query acc i) <-> combine_step_ok base deny query i.
Proof.
  destruct acc as [wo w]. unfold combine_step, combine_step_ok.
  destruct (base !! i) as [b|] eqn:Hb; simpl.
  2:{ split; [intros [? ?]; discriminate | intros (? & ? & ? & _); discriminate]. }
  destruct (query !! i) as [q|] eqn:Hq; simpl.
  2:{ destruct (Py.str_eq b "comment"); simpl;
      (split; [intros [? ?]; discriminate | intros (? & ? & _ & ? & _); discriminate]). }
  destruct (Py.str_eq q "query") eqn:Hqq.
  - apply str_eq_true in Hqq. subst q.
    destruct (Py.str_eq b "comment"); simpl;
      (split; [intros _; exists b, "query"; auto | intros _; eexists; reflexivity]).
  - apply str_eq_false in Hqq.
    destruct (deny !! i) as [d|] eqn:Hd; simpl.
    + destruct (Py.str_eq b "comment"), (Py.str_eq d "deny"); simpl;
        rewrite ?Hb; simpl;
        (split; [intros _; exists b, q; eauto | intros _; eexists; reflexivity]).
    + destruct (Py.str_eq b "comment"); simpl; rewrite ?Hb; simpl;
        (split; [intros [? ?]; discriminate|]);
        intros (b' & q' & _ & Hq' & [->|[? ?]]); congruence.
Qed.

(** The label appended to each accumulator at index [i] when the body ends
    normally there. *)
Lemma combine_step_Some acc acc' i :
  combine_step base deny query acc i = Some acc' ->
  exists b q,
    base !! i = Some b /\ query !! i = Some q /\
    acc'.1 = acc.1 ++ [without_deny_label b q] /\
    acc'.2 = acc.2 ++ [with_deny_label b (default "" (deny !! i)) q].
Proof.
  destruct acc as [wo w]. unfold combine_step, without_deny_label, with_deny_label.
  destruct (base !! i) as [b|] eqn:Hb; simpl; [|discriminate].
  destruct (query !! i) as [q|] eqn:Hq; simpl;
    [|destruct (Py.str_eq b "comment"); discriminate].
  intros H. exists b, q. split; [done|]. split; [done|].
  destruct (Py.str_eq q "query") eqn:Hqq.
  - destruct (Py.str_eq b "comment"); simpl in H; injection H as <-; done.
  - destruct (deny !! i) as [d|] eqn:Hd; simpl in H;
      [|destruct (Py.str_eq b "comment"); simpl in H; rewrite ?Hb in H; discriminate].
    destruct (Py.str_eq b "comment"), (Py.str_eq d "deny") eqn:Hdd; simpl in H;
      rewrite ?Hb in H; simpl in H; injection H as <-; simpl; rewrite Hdd; done.
Qed.

Lemma combine_loop_Some (idxs : list nat) : forall wo w wo' w',
  Py.for_each (combine_step base deny query) idxs (wo, w) = Some (wo', w') ->
  wo' = wo ++ (wo_at base query <$> idxs) /\
  w' = w ++ (w_at base deny query <$> idxs).
Proof.
  induction idxs as [|i idxs IH]; intros wo w wo' w' Hrun; cbn [Py.for_each] in Hrun.
  - injection Hrun as <- <-. by rewrite !app_nil_r.
  - destruct (combine_step base deny query (wo, w) i) as [[wo1 w1]|] eqn:Hstep;
      [|discriminate].
    destruct (combine_step_Some _ _ _ Hstep) as (b & q & Hb & Hq & Hwo & Hw).
    simpl in Hwo, Hw. subst wo1 w1.
    destruct (IH _ _ _ _ Hrun) as [-> ->].
    rewrite !fmap_cons, <- !app_assoc. unfold wo_at, w_at. rewrite Hb, Hq. done.
Qed.

Lemma combine_Some wo w :
  combine base deny query = Some (wo, w) ->
  wo = wo_at base query <$> seq 0 (length base) /\
  w = w_at base deny query <$> seq 0 (length base).
Proof.
  unfold combine, Py.range. intros H.
  by destruct (combine_loop_Some _ _ _ _ _ H) as [-> ->].
Qed.

Lemma combine_is_Some :
  is_Some (combine base deny query)
  <-> Forall (combine_step_ok base deny query) (seq 0 (length base)).
Proof.
  unfold combine, Py.range.
  apply (for_each_is_Some _ _ _ combine_step_is_Some).
Qed.

Lemma combine_Some_lookup wo w i b :
  combine base deny query = Some (wo, w) ->
  base !! i = Some b ->
  exists q, query !! i = Some q /\
    wo !! i = Some (without_deny_label b q) /\
    w !! i = Some (with_deny_label b (default "" (deny !! i)) q).
Proof.
  intros Hc Hb. pose proof (lookup_lt_Some _ _ _ Hb) as Hlt.
  assert (Hok : combine_step_ok base deny query i).
  { assert (Hall : Forall (combine_step_ok base deny query) (seq 0 (length base))).
    { apply combine_is_Some. by rewrite Hc. }
    apply (proj1 (list.Forall_forall _ _) Hall). apply elem_of_seq. lia. }
  destruct Hok as (b' & q & Hb' & Hq & _).
  destruct (combine_Some _ _ Hc) as [-> ->].
  exists q. split; [done|].
  rewrite !list_lookup_fmap, (lookup_seq_lt 0 _ i Hlt). simpl.
  unfold wo_at, w_at. by rewrite Hb, Hq.
Qed.

End EnsembleEdges.

Lemma without_deny_label_choice (b q : string) :
  without_deny_label b q = b \/ without_deny_label b q = "query".
Proof.
  unfold without_deny_label.
  destruct (Py.str_eq b "comment") eqn:Hb.
  - apply str_eq_true in Hb. by left.
  - destruct (Py.str_eq q "query"); auto.
Qed.

Lemma with_deny_label_choice (b d q : string) :
  with_deny_label b d q = b \/ with_deny_label b d q = "query" \/
  with_deny_label b d q = "deny".
Proof.
  unfold with_deny_label.
  destruct (Py.str_eq q "query"); [auto|]. destruct (Py.str_eq d "deny"); auto.
Qed.

Lemma CLASSES_query : "query" ∈ CLASSES.
Proof. apply list_elem_of_In. simpl. tauto. Qed.

Lemma CLASSES_deny : "deny" ∈ CLASSES.
Proof. apply list_elem_of_In. simpl. tauto. Qed.

Lemma accuracy_score_defined (gold p : list string) :
  gold <> [] ->
  length p = length gold ->
  accuracy_score gold p
  = Some (Z.of_nat (correct_count gold p) # Pos.of_nat (length gold)).
Proof.
  intros Hne H. unfold accuracy_score. rewrite H, Nat.eqb_refl.
  destruct gold; [done | reflexivity].
Qed.

Lemma lt_same_denominator (c1 c2 : nat) (d : positive) :
  Py.lt (Z.of_nat c1 # d) (Z.of_nat c2 # d) = true <-> c1 < c2.
Proof.
  unfold Py.lt. simpl. rewrite Z.ltb_lt.
  rewrite <- Z.mul_lt_mono_pos_r by lia. lia.
Qed.

(** X1. The ensemble loop ends normally exactly when every index of the
    Base predictions has a Query prediction and, unless that one is 'query',
    a Deny prediction: the Deny prediction is not read where the Query
    detector fires. In particular the loop raises when the Query predictions
    are fewer than the Base predictions. *)
Theorem combine_returns_iff (base deny query : list string) :
  (is_Some (combine base deny query) <->
   forall i, i < length base ->
     exists q, query !! i = Some q /\ (q = "query" \/ i < length deny)) /\
  (length query < length base -> combine base deny query = None).
Proof.
  assert (Hiff : is_Some (combine base deny query) <->
                 forall i, i < length base ->
                   exists q, query !! i = Some q /\ (q = "query" \/ i < length deny)).
  { rewrite combine_is_Some, list.Forall_forall. split.
    - intros H i Hi. destruct (H i) as (b & q & _ & Hq & Hd); [apply elem_of_seq; lia|].
      exists q. split; [done|]. destruct Hd as [?|Hd]; [by left|].
      right. by apply lookup_lt_is_Some.
    - intros H i Hi. apply elem_of_seq in Hi.
      destruct (H i) as (q & Hq & Hd); [lia|].
      destruct (lookup_lt_is_Some_2 base i) as [b Hb]; [lia|].
      exists b, q. split; [done|]. split; [done|].
      destruct Hd as [?|Hd]; [by left|]. right. by apply lookup_lt_is_Some. }
  split; [done|].
  intros Hlen. apply eq_None_not_Some. intros Hsome.
  destruct (proj1 Hiff Hsome (length query) Hlen) as (q & Hq & _).
  apply lookup_lt_Some in Hq. lia.
Qed.

(** X2. Predictions of the two detectors beyond the length of the Base
    predictions are never read. *)
Theorem combine_ignores_extra (base deny query : list string) :
  combine base deny query
  = combine base (take (length base) deny) (take (length base) query).
Proof.
  unfold combine. apply for_each_ext. intros i [wo w] Hi.
  apply elem_of_seq in Hi. unfold combine_step.
  by rewrite !lookup_take_lt by lia.
Qed.

(** X3. Whatever the detectors predict, each strategy gives one label per
    Base prediction, and labels of the four classes when Base's are. *)
Theorem combine_labels_closed (base deny query wo w : list string) :
  combine base deny query = Some (wo, w) ->
  Forall (fun b => b ∈ CLASSES) base ->
  length wo = length base /\ length w = length base /\
  Forall (fun l => l ∈ CLASSES) wo /\ Forall (fun l => l ∈ CLASSES) w.
Proof.
  intros Hc Hbase.
  assert (Hlen : length wo = length base /\ length w = length base).
  { destruct (combine_Some _ _ _ _ _ Hc) as [-> ->].
    by rewrite !length_fmap, !length_seq. }
  destruct Hlen as [Hlwo Hlw]. split; [done|]. split; [done|].
  split; apply Forall_lookup; intros i l Hl.
  - destruct (lookup_lt_is_Some_2 base i) as [b Hb];
      [apply lookup_lt_Some in Hl; lia|].
    destruct (combine_Some_lookup _ _ _ _ _ _ _ Hc Hb) as (q & _ & Hwo & _).
    rewrite Hwo in Hl. injection Hl as <-.
    destruct (without_deny_label_choice b q) as [-> | ->];
      [by apply (proj1 (Forall_lookup _ _) Hbase i) | apply CLASSES_query].
  - destruct (lookup_lt_is_Some_2 base i) as [b Hb];
      [apply lookup_lt_Some in Hl; lia|].
    destruct (combine_Some_lookup _ _ _ _ _ _ _ Hc Hb) as (q & _ & _ & Hw).
    rewrite Hw in Hl. injection Hl as <-.
    destruct (with_deny_label_choice b (default "" (deny !! i)) q) as [-> | [-> | ->]];
      [by apply (proj1 (Forall_lookup _ _) Hbase i) | apply CLASSES_query
      | apply CLASSES_deny].
Qed.

Lemma combine_labels_closed_witness :
  length sample_wo = length sample_base /\ length sample_w = length sample_base /\
  Forall (fun l => l ∈ CLASSES) sample_wo /\ Forall (fun l => l ∈ CLASSES) sample_w.
Proof.
  apply (combine_labels_closed sample_base sample_deny sample_query);
    [reflexivity|].
  repeat constructor; apply list_elem_of_In; simpl; tauto.
Defined.

(** X4. At an index the two strategies give different labels exactly when
    Base says 'comment' while the Query detector says 'query', or the Query
    detector does not say 'query', the Deny detector says 'deny' and Base
    does not. *)
Theorem strategies_differ_iff (base deny query wo w : list string) (i : nat)
    (b d q : string) :
  combine base deny query = Some (wo, w) ->
  base !! i = Some b -> deny !! i = Some d -> query !! i = Some q ->
  (wo !! i <> w !! i <->
   (b = "comment" /\ q = "query") \/ (q <> "query" /\ d = "deny" /\ b <> "deny")).
Proof.
  intros Hc Hb Hd Hq.
  destruct (combine_Some_lookup _ _ _ _ _ _ _ Hc Hb) as (q' & Hq' & -> & ->).
  rewrite Hq in Hq'. injection Hq' as <-. rewrite Hd. simpl.
  unfold without_deny_label, with_deny_label.
  destruct (decide (b = "comment")) as [Hbc|Hbc];
    [rewrite ?(proj2 (str_eq_true _ _) Hbc) | rewrite ?(proj2 (str_eq_false _ _) Hbc)];
  (destruct (decide (q = "query")) as [Hqq|Hqq];
    [rewrite ?(proj2 (str_eq_true _ _) Hqq) | rewrite ?(proj2 (str_eq_false _ _) Hqq)]);
  (destruct (decide (d = "deny")) as [Hdd|Hdd];
    [rewrite ?(proj2 (str_eq_true _ _) Hdd) | rewrite ?(proj2 (str_eq_false _ _) Hdd)]);
  subst; intuition congruence.
Qed.

Lemma strategies_differ_iff_witness :
  sample_wo !! 3 <> sample_w !! 3 <->
  ("support" = "comment" /\ "not_query" = "query") \/
  ("not_query" <> "query" /\ "deny" = "deny" /\ "support" <> "deny").
Proof.
  apply (strategies_differ_iff sample_base sample_deny sample_query
           sample_wo sample_w 3 "support" "deny" "not_query"); reflexivity.
Defined.

Lemma lt_irrefl (a : Q) : Py.lt a a = false.
Proof. unfold Py.lt. apply Z.ltb_irrefl. Qed.

(** X5. When the Query detector never says 'query' and the Deny detector
    never says 'deny', both strategies return Base's predictions unchanged;
    the selection then returns Base's predictions whenever scoring them
    against the gold labels returns a score. *)
Theorem silent_detectors_keep_base (base deny query : list string) :
  length deny = length base ->
  length query = length base ->
  Forall (fun q => q <> "query") query ->
  Forall (fun d => d <> "deny") deny ->
  combine base deny query = Some (base, base) /\
  forall gold a, accuracy_score gold base = Some a ->
    best_predictions gold base base = Some base.
Proof.
  intros Hd Hq Hquery Hdeny. split.
  - rewrite (combine_defined base deny query Hd Hq). f_equal. f_equal.
    + apply list_eq. intros i. unfold wo_deny_all. rewrite lookup_zip_with.
      destruct (base !! i) as [b|] eqn:Hb; simpl; [|done].
      destruct (lookup_lt_is_Some_2 query i) as [q Hqi];
        [apply lookup_lt_Some in Hb; lia|].
      rewrite Hqi. simpl. f_equal.
      pose proof (proj1 (Forall_lookup _ _) Hquery i q Hqi) as Hne.
      destruct (decide (b = "comment")) as [->|Hbc].
      * apply (proj1 (without_deny_label_cases "comment" q) eq_refl).
      * apply (proj2 (proj2 (without_deny_label_cases b q)) Hbc Hne).
    + apply list_eq. intros i. unfold w_deny_all. rewrite lookup_zip_with.
      destruct (base !! i) as [b|] eqn:Hb; simpl; [|done].
      destruct (lookup_lt_is_Some_2 query i) as [q Hqi];
        [apply lookup_lt_Some in Hb; lia|].
      destruct (lookup_lt_is_Some_2 deny i) as [d Hdi];
        [apply lookup_lt_Some in Hb; lia|].
      rewrite lookup_zip_with, Hdi. simpl. rewrite Hqi. simpl. f_equal.
      apply (proj2 (proj2 (with_deny_label_cases b d q))).
      * by apply (proj1 (Forall_lookup _ _) Hquery i).
      * by apply (proj1 (Forall_lookup _ _) Hdeny i).
  - intros gold a Ha. unfold best_predictions, best_strategy.
    rewrite Ha. simpl. by rewrite lt_irrefl.
Qed.

Lemma silent_detectors_keep_base_witness :
  combine eval_gold silent_deny silent_query = Some (eval_gold, eval_gold) /\
  forall gold a, accuracy_score gold eval_gold = Some a ->
    best_predictions gold eval_gold eval_gold = Some eval_gold.
Proof.
  apply silent_detectors_keep_base; try reflexivity;
    repeat constructor; discriminate.
Defined.

(** X6. The selected predictions are one of the two strategies' outputs and
    score at least as well as each of them. *)
Theorem best_predictions_best (gold wo w : list string) (a_wo a_w : Q) :
  accuracy_score gold wo = Some a_wo ->
  accuracy_score gold w = Some a_w ->
  exists p a,
    best_predictions gold wo w = Some p /\
    (p = wo \/ p = w) /\
    accuracy_score gold p = Some a /\
    (a_wo <= a)%Q /\ (a_w <= a)%Q.
Proof.
  intros Hwo Hw. unfold best_predictions, best_strategy. rewrite Hwo, Hw. simpl.
  destruct (Py.lt a_wo a_w) eqn:Hlt; simpl.
  - exists w, a_w. apply lt_spec in Hlt.
    repeat split; auto; [by apply Qlt_le_weak | apply Qle_refl].
  - exists wo, a_wo. apply lt_false_spec in Hlt.
    repeat split; auto. apply Qle_refl.
Qed.

Lemma best_predictions_best_witness :
  exists p a,
    best_predictions sample_gold sample_wo sample_w = Some p /\
    (p = sample_wo \/ p = sample_w) /\
    accuracy_score sample_gold p = Some a /\
    (3 # 4 <= a)%Q /\ (3 # 4 <= a)%Q.
Proof.
  apply (best_predictions_best sample_gold sample_wo sample_w (3 # 4) (3 # 4));
    reflexivity.
Defined.

(** X7. Over one evaluation set that is not empty the comparison of the two
    accuracy scores is the comparison of the numbers of messages each
    strategy gets right: with-deny is selected exactly when it gets
    strictly more right. *)
Theorem selection_by_counts (gold wo w : list string) :
  gold <> [] ->
  length wo = length gold ->
  length w = length gold ->
  (best_strategy gold wo w = Some WithDeny <->
   correct_count gold wo < correct_count gold w) /\
  (best_strategy gold wo w = Some WithoutDeny <->
   correct_count gold w <= correct_count gold wo).
Proof.
  intros Hne Hwo Hw. unfold best_strategy.
  rewrite (accuracy_score_defined gold wo Hne Hwo),
          (accuracy_score_defined gold w Hne Hw).
  simpl.
  destruct (Py.lt _ _) eqn:Hlt.
  - apply lt_same_denominator in Hlt. split; split; intros H; try done; lia.
  - assert (Hge : ~ correct_count gold wo < correct_count gold w).
    { intros H. apply lt_same_denominator with (d := Pos.of_nat (length gold)) in H.
      congruence. }
    split; split; intros H; try done; lia.
Qed.

Lemma selection_by_counts_witness :
  (best_strategy eval_gold eval_wo eval_w = Some WithDeny <->
   correct_count eval_gold eval_wo < correct_count eval_gold eval_w) /\
  (best_strategy eval_gold eval_wo eval_w = Some WithoutDeny <->
   correct_count eval_gold eval_w <= correct_count eval_gold eval_wo).
Proof.
  apply (selection_by_counts eval_gold eval_wo eval_w);
    [discriminate | reflexivity | reflexivity].
Defined.

(** X8. Whenever the loop and the selection both return, the selected
    list has one label per Base prediction, and the label at each index is
    Base's label there, 'query' or 'deny'; it is one of the four classes
    when Base's label is. *)
Theorem selected_labels (gold base deny query wo w p : list string) :
  combine base deny query = Some (wo, w) ->
  best_predictions gold wo w = Some p ->
  length p = length base /\
  forall i b, base !! i = Some b ->
    exists l, p !! i = Some l /\
              (l = b \/ l = "query" \/ l = "deny") /\
              (b ∈ CLASSES -> l ∈ CLASSES).
Proof.
  intros Hc Hbest.
  assert (Hp : p = wo \/ p = w).
  { unfold best_predictions, best_strategy in Hbest.
    destruct (accuracy_score gold wo) as [a_wo|]; simpl in Hbest; [|discriminate].
    destruct (accuracy_score gold w) as [a_w|]; simpl in Hbest; [|discriminate].
    destruct (Py.lt a_wo a_w); injection Hbest as <-; auto. }
  split.
  - destruct (combine_Some _ _ _ _ _ Hc) as [Hwo Hw].
    destruct Hp as [-> | ->]; [rewrite Hwo | rewrite Hw];
      by rewrite length_fmap, length_seq.
  - intros i b Hb.
    destruct (combine_Some_lookup _ _ _ _ _ _ _ Hc Hb) as (q & _ & Hwo & Hw).
    destruct Hp as [-> | ->]; eexists; (split; [eassumption|]).
    + destruct (without_deny_label_choice b q) as [-> | ->];
        (split; [auto|]); [done | intros _; apply CLASSES_query].
    + destruct (with_deny_label_choice b (default "" (deny !! i)) q)
        as [-> | [-> | ->]];
        (split; [auto|]);
        [done | intros _; apply CLASSES_query | intros _; apply CLASSES_deny].
Qed.

Lemma selected_labels_witness :
  length eval_w = length eval_base /\
  forall i b, eval_base !! i = Some b ->
    exists l, eval_w !! i = Some l /\
              (l = b \/ l = "query" \/ l = "deny") /\
              (b ∈ CLASSES -> l ∈ CLASSES).
Proof.
  apply (selected_labels eval_gold eval_base eval_deny eval_query eval_wo eval_w);
    reflexivity.
Defined.

(** ** Label lists and the result dict *)

Lemma drop_cons_inv {A : Type} (k : nat) (l : list A) (x : A) (r : list A) :
  drop k l = x :: r -> l !! k = Some x /\ drop (S k) l = r.
Proof.
  intros H. split.
  - rewrite <- (Nat.add_0_r k), <- lookup_drop, H. done.
  - replace (S k) with (k + 1) by lia. rewrite <- drop_drop, H. done.
Qed.

Section SdqcFacts.

Variable id_str : Tweet -> string.

Local Abbreviation store :=
  (fun (m : gmap string string) (tp : Tweet * string) => <[id_str tp.1 := tp.2]> m).

Lemma results_loop (all_tweets : list Tweet) (predictions : list string) :
  forall k tweets m,
    drop k all_tweets = tweets ->
    length predictions <= length tweets ->
    Py.for_each (results_step id_str all_tweets)
                (zip (seq k (length predictions)) predictions) m
    = Some (foldl store m (zip tweets predictions)).
Proof.
  induction predictions as [|p predictions IH]; intros k tweets m Hdrop Hlen;
    [by destruct tweets|].
  destruct tweets as [|t tweets]; [simpl in Hlen; lia|].
  destruct (drop_cons_inv _ _ _ _ Hdrop) as [Hk Hrest].
  cbn [length seq zip zip_with Py.for_each]. unfold results_step at 1.
  rewrite Hk. simpl. apply IH; [done | simpl in Hlen; lia].
Qed.

Lemma results_dict_foldl (tweets : list Tweet) (predictions : list string) :
  length predictions <= length tweets ->
  results_dict id_str tweets predictions
  = Some (foldl store ∅ (zip tweets predictions)).
Proof. intros H. unfold results_dict, enumerate. by apply results_loop. Qed.

Lemma foldl_store_other (l : list (Tweet * string)) (k : string) : forall m,
  (forall t p, (t, p) ∈ l -> id_str t <> k) ->
  foldl store m l !! k = m !! k.
Proof.
  induction l as [|[t p] l IH]; intros m Hne; simpl; [done|].
  rewrite IH by (intros t' p' Hin; apply (Hne t' p'); by apply list_elem_of_further).
  apply lookup_insert_ne. apply (Hne t p), list_elem_of_here.
Qed.

Lemma foldl_store_last (l : list (Tweet * string)) : forall m i t p,
  l !! i = Some (t, p) ->
  (forall j t' p', i < j -> l !! j = Some (t', p') -> id_str t' <> id_str t) ->
  foldl store m l !! id_str t = Some p.
Proof.
  induction l as [|[t0 p0] l IH]; intros m i t p Hi Hlast; [done|].
  destruct i as [|i]; simpl in *.
  - injection Hi as -> ->. rewrite foldl_store_other; [apply lookup_insert_eq|].
    intros t' p' Hin. apply list_elem_of_lookup in Hin as [j Hj].
    apply (Hlast (S j) t' p'); [lia | done].
  - apply (IH _ i); [done|]. intros j t' p' Hij Hj.
    apply (Hlast (S j) t' p'); [lia | done].
Qed.

Lemma foldl_store_dom (l : list (Tweet * string)) : forall m k v,
  foldl store m l !! k = Some v ->
  m !! k = Some v \/ exists i t, l !! i = Some (t, v) /\ id_str t = k.
Proof.
  induction l as [|[t p] l IH]; intros m k v Hk; simpl in Hk; [by left|].
  destruct (IH _ _ _ Hk) as [Hm|(i & t' & Hi & Hid)].
  - simpl in Hm. destruct (decide (id_str t = k)) as [<-|Hne].
    + rewrite lookup_insert_eq in Hm. injection Hm as ->.
      right. by exists 0, t.
    + rewrite lookup_insert_ne in Hm by done. by left.
  - right. by exists (S i), t'.
Qed.

Lemma lookup_zip_pair (tweets : list Tweet) (predictions : list string) i t p :
  zip tweets predictions !! i = Some (t, p)
  <-> tweets !! i = Some t /\ predictions !! i = Some p.
Proof.
  rewrite lookup_zip_with.
  destruct (tweets !! i) as [t'|]; simpl;
    [|split; [discriminate | intros [? _]; discriminate]].
  destruct (predictions !! i) as [p'|]; simpl;
    [|split; [discriminate | intros [_ ?]; discriminate]].
  split; [intros H; injection H as -> ->; done | intros [H1 H2]; congruence].
Qed.

Lemma results_dict_Some_bound (tweets : list Tweet) (predictions : list string)
    (results : gmap string string) :
  results_dict id_str tweets predictions = Some results ->
  length predictions <= length tweets.
Proof.
  intros Hres. destruct (decide (length predictions <= length tweets)); [done|].
  exfalso. assert (Hsome : is_Some (results_dict id_str tweets predictions)) by eauto.
  unfold results_dict in Hsome.
  apply (for_each_is_Some _ (fun ip => is_Some (tweets !! ip.1))) in Hsome.
  - destruct (lookup_lt_is_Some_2 predictions (length tweets)) as [p Hp]; [lia|].
    assert (Hin : (length tweets, p) ∈ enumerate predictions).
    { apply list_elem_of_lookup. exists (length tweets). unfold enumerate.
      rewrite lookup_zip_with, lookup_seq_lt by lia. simpl. by rewrite Hp. }
    apply (proj1 (list.Forall_forall _ _) Hsome) in Hin. simpl in Hin.
    apply lookup_lt_is_Some in Hin. lia.
  - intros m [i p]. unfold results_step. simpl.
    destruct (tweets !! i); simpl; split; intros [? ?]; try discriminate; eauto.
Qed.

Lemma results_dict_last (tweets : list Tweet) (predictions : list string)
    (results : gmap string string) i t p :
  results_dict id_str tweets predictions = Some results ->
  tweets !! i = Some t -> predictions !! i = Some p ->
  (forall j t', i < j -> j < length predictions ->
                tweets !! j = Some t' -> id_str t' <> id_str t) ->
  results !! id_str t = Some p.
Proof.
  intros Hres Ht Hp Hlast.
  rewrite results_dict_foldl in Hres by (by apply (results_dict_Some_bound _ _ results)).
  injection Hres as <-. apply (foldl_store_last _ _ i).
  - by apply lookup_zip_pair.
  - intros j t' p' Hij Hj. apply lookup_zip_pair in Hj as [Hj Hpj].
    apply (Hlast j t' Hij); [by apply lookup_lt_Some in Hpj | done].
Qed.

End SdqcFacts.

(** X9. Building a label list raises exactly when some tweet's id is not
    annotated; otherwise the list has one label per tweet, the annotation of
    that tweet's id, in the order of the tweets. *)
Theorem annotation_labels_returns
    (id_str : Tweet -> string) (annotations : gmap string string)
    (tweets : list Tweet) :
  (is_Some (annotation_labels id_str annotations tweets) <->
   forall t, t ∈ tweets -> is_Some (annotations !! id_str t)) /\
  (forall y, annotation_labels id_str annotations tweets = Some y ->
     length y = length tweets /\
     forall i t, tweets !! i = Some t -> y !! i = annotations !! id_str t).
Proof.
  unfold annotation_labels. split.
  - rewrite mapM_is_Some, list.Forall_forall. done.
  - intros y Hy. apply mapM_Some in Hy. split.
    + symmetry. apply (Forall2_length Hy).
    + intros i t Ht.
      destruct (Forall2_lookup_l _ _ _ _ _ Hy Ht) as (l & Hl & Hlab).
      by rewrite Hl, Hlab.
Qed.

(** X10. The one-vs-rest label lists are the base label list relabelled
    element by element: looking ids up in the relabelled annotations gives
    the same list, and raises in the same cases. *)
Theorem annotation_labels_relabel
    (id_str : Tweet -> string) (annotations : gmap string string)
    (one : string) (tweets : list Tweet) :
  annotation_labels id_str (generate_one_vs_rest_annotations annotations one) tweets
  = fmap (M := option) (fmap (M := list) (one_vs_rest_label one))
         (annotation_labels id_str annotations tweets).
Proof.
  unfold annotation_labels. induction tweets as [|t tweets IH]; [done|].
  cbn [mapM]. rewrite generate_one_vs_rest_lookup, IH.
  destruct (annotations !! id_str t) as [l|]; simpl; [|done].
  destruct (mapM (fun x => annotations !! id_str x) tweets); simpl; done.
Qed.

(** X11. Building the result dict raises exactly when there are more
    predictions than evaluation tweets. *)
Theorem results_dict_returns_iff
    (id_str : Tweet -> string) (tweets : list Tweet) (predictions : list string) :
  is_Some (results_dict id_str tweets predictions)
  <-> length predictions <= length tweets.
Proof.
  split.
  - intros [results Hres]. by apply (results_dict_Some_bound id_str _ _ results).
  - intros Hlen. rewrite results_dict_foldl by done. eauto.
Qed.

(** X12. In the result dict every entry is the prediction made at the
    index of a tweet with that id, and the prediction of a tweet is stored
    under its id unless a later tweet has the same id: the last prediction
    for an id wins. *)
Theorem results_dict_entries
    (id_str : Tweet -> string) (tweets : list Tweet) (predictions : list string)
    (results : gmap string string) :
  results_dict id_str tweets predictions = Some results ->
  (forall k v, results !! k = Some v ->
     exists i t, tweets !! i = Some t /\ predictions !! i = Some v /\ id_str t = k) /\
  (forall i t p,
     tweets !! i = Some t -> predictions !! i = Some p ->
     (forall j t', i < j -> j < length predictions ->
                   tweets !! j = Some t' -> id_str t' <> id_str t) ->
     results !! id_str t = Some p).
Proof.
  intros Hres. split.
  - pose proof (results_dict_Some_bound id_str _ _ _ Hres) as Hlen.
    rewrite results_dict_foldl in Hres by done. injection Hres as <-.
    intros k v Hk. apply foldl_store_dom in Hk as [Hk|(i & t & Hi & Hid)].
    + by rewrite lookup_empty in Hk.
    + apply lookup_zip_pair in Hi as [Ht Hp]. by exists i, t.
  - intros i t p. by apply results_dict_last.
Qed.

Lemma results_dict_entries_witness :
  (forall k v, ({["5" := "deny"; "7" := "query"]} : gmap string string) !! k = Some v ->
     exists i t, [tweet_A; tweet_B; tweet_D] !! i = Some t /\
                 ["comment"; "query"; "deny"] !! i = Some v /\
                 sample_id_str t = k) /\
  (forall i t p,
     [tweet_A; tweet_B; tweet_D] !! i = Some t ->
     ["comment"; "query"; "deny"] !! i = Some p ->
     (forall j t', i < j -> j < length ["comment"; "query"; "deny"] ->
                   [tweet_A; tweet_B; tweet_D] !! j = Some t' ->
                   sample_id_str t' <> sample_id_str t) ->
     ({["5" := "deny"; "7" := "query"]} : gmap string string) !! sample_id_str t
     = Some p).
Proof.
  apply (results_dict_entries sample_id_str
           [tweet_A; tweet_B; tweet_D] ["comment"; "query"; "deny"]).
  vm_compute. reflexivity.
Defined.

(** X13. With pairwise distinct ids and one prediction per evaluation
    tweet, reading the result dict back in the order of the tweets gives
    the predictions. *)
Theorem results_dict_round_trip
    (id_str : Tweet -> string) (tweets : list Tweet) (predictions : list string) :
  NoDup (id_str <$> tweets) ->
  length predictions = length tweets ->
  exists results,
    results_dict id_str tweets predictions = Some results /\
    annotation_labels id_str results tweets = Some predictions.
Proof.
  intros Hnd Hlen.
  assert (Hsome : is_Some (results_dict id_str tweets predictions)).
  { rewrite results_dict_foldl by lia. eauto. }
  destruct Hsome as [r Hr]. exists r. split; [done|].
  unfold annotation_labels. apply mapM_Some. apply Forall2_same_length_lookup.
  split; [done|]. intros i t p Ht Hp.
  apply (results_dict_last id_str tweets predictions r i t p Hr Ht Hp).
  intros j t' Hij _ Hj Heq.
  assert (i = j); [|lia].
  apply (NoDup_lookup _ i j (id_str t) Hnd);
    rewrite list_lookup_fmap; [by rewrite Ht | rewrite Hj; simpl; by rewrite Heq].
Qed.

Lemma results_dict_round_trip_witness :
  exists results,
    results_dict (fun t => tweet_raw_text t) [tweet_A; tweet_B]
                 ["query"; "deny"] = Some results /\
    annotation_labels (fun t => tweet_raw_text t) results [tweet_A; tweet_B]
      = Some ["query"; "deny"].
Proof.
  apply results_dict_round_trip; [|reflexivity].
  repeat constructor; rewrite ?list_elem_of_In; simpl; intuition discriminate.
Defined.

(** ** Misclassification listings *)

Lemma is_misclassified_relabel (one gold prediction : string) :
  prediction = one \/ prediction = Py.format_not one ->
  is_misclassified one (Py.format_not one) gold prediction
  = negb (Py.str_eq (one_vs_rest_label one gold) prediction).
Proof.
  pose proof (format_not_fresh one) as Hfresh.
  unfold is_misclassified. intros [-> | ->].
  - rewrite (proj2 (str_eq_true one one) eq_refl).
    rewrite (proj2 (str_eq_false one (Py.format_not one))) by congruence.
    destruct (one_vs_rest_label_cases one gold) as [[-> ->]|[Hne ->]].
    + by rewrite (proj2 (str_eq_true one one) eq_refl).
    + rewrite (proj2 (str_eq_false gold one) Hne).
      by rewrite (proj2 (str_eq_false (Py.format_not one) one) Hfresh).
  - rewrite (proj2 (str_eq_false (Py.format_not one) one) Hfresh).
    rewrite (proj2 (str_eq_true (Py.format_not one) _) eq_refl).
    destruct (one_vs_rest_label_cases one gold) as [[-> ->]|[Hne ->]].
    + rewrite (proj2 (str_eq_true one one) eq_refl).
      by rewrite (proj2 (str_eq_false one (Py.format_not one))) by congruence.
    + rewrite (proj2 (str_eq_false gold one) Hne).
      by rewrite (proj2 (str_eq_true (Py.format_not one) _) eq_refl).
Qed.

Section ListingFacts.

Variable text : Tweet -> string.
Variables one not_one : string.

Lemma misclassified_step_defined y tweets printed i g p t :
  y !! i = Some g -> tweets !! i = Some t ->
  misclassified_step text one not_one y tweets printed (i, p)
  = Some (if is_misclassified one not_one g p
          then printed ++ [(g, p, text t, text (root_of t))]
          else printed).
Proof.
  intros Hg Ht. unfold misclassified_step, is_misclassified.
  rewrite Hg, Ht. simpl.
  destruct (Py.str_eq p one), (Py.str_eq g one), (Py.str_eq p not_one); done.
Qed.

Lemma misclassified_loop (all_y : list string) (all_tweets : list Tweet)
    (predictions : list string) :
  forall k y tweets printed,
    drop k all_y = y -> drop k all_tweets = tweets ->
    length predictions <= length y ->
    length predictions <= length tweets ->
    Py.for_each (misclassified_step text one not_one all_y all_tweets)
                (zip (seq k (length predictions)) predictions) printed
    = Some (printed ++ misclassified_rows text one not_one y tweets predictions).
Proof.
  induction predictions as [|p predictions IH];
    intros k y tweets printed Hy Ht Hly Hlt.
  - unfold misclassified_rows. destruct y; simpl; by rewrite app_nil_r.
  - destruct y as [|g y]; [simpl in Hly; lia|].
    destruct tweets as [|t tweets]; [simpl in Hlt; lia|].
    destruct (drop_cons_inv _ _ _ _ Hy) as [Hg Hy'].
    destruct (drop_cons_inv _ _ _ _ Ht) as [Htk Ht'].
    cbn [length seq zip zip_with Py.for_each].
    rewrite (misclassified_step_defined _ _ _ _ g p t Hg Htk).
    rewrite (IH (S k) y tweets) by (simpl in *; done || lia).
    unfold misclassified_rows. cbn [zip zip_with]. rewrite filter_cons.
    cbn [fst snd].
    destruct (is_misclassified one not_one g p) eqn:Hmis.
    + rewrite decide_True by done. by rewrite fmap_cons, <- app_assoc.
    + rewrite decide_False by discriminate. done.
Qed.

End ListingFacts.

Lemma misclassified_count (text : Tweet -> string) (one : string)
    (predictions : list string) : forall (y : list string) (tweets : list Tweet),
  length y = length predictions ->
  length tweets = length predictions ->
  Forall (fun p => p = one \/ p = Py.format_not one) predictions ->
  length (misclassified_rows text one (Py.format_not one) y tweets predictions)
  + correct_count (one_vs_rest_label one <$> y) predictions
  = length predictions.
Proof.
  unfold misclassified_rows, correct_count.
  induction predictions as [|p predictions IH]; intros y tweets Hy Ht Hall.
  - destruct y; [done | simpl in Hy; lia].
  - destruct y as [|g y]; [simpl in Hy; lia|].
    destruct tweets as [|t tweets]; [simpl in Ht; lia|].
    inversion Hall as [|? ? Hp Hall']; subst.
    specialize (IH y tweets ltac:(simpl in Hy; lia) ltac:(simpl in Ht; lia) Hall').
    rewrite length_fmap in IH |- *.
    rewrite fmap_cons. cbn [zip zip_with]. rewrite !filter_cons.
    cbn [fst snd].
    rewrite (is_misclassified_relabel one g p Hp).
    destruct (Py.str_eq (one_vs_rest_label one g) p) eqn:Heq; cbn [negb].
    + rewrite decide_False by discriminate. rewrite decide_True by done.
      simpl. lia.
    + rewrite decide_True by done. rewrite decide_False by discriminate.
      simpl. lia.
Qed.

(** X14. Over one evaluation set a listing loop ends normally and prints
    one row (gold label, prediction, text, root text) for each message
    predicted as the class while its gold label is another, or predicted as
    'not_<class>' while its gold label is the class, in the order of the
    messages; when every prediction is one of the two labels, the rows and
    the predictions that agree with the relabelled gold labels add up to
    the number of messages. *)
Theorem misclassified_listing (text : Tweet -> string) (one : string)
    (y : list string) (tweets : list Tweet) (predictions : list string) :
  length y = length predictions ->
  length tweets = length predictions ->
  misclassified text one (Py.format_not one) y tweets predictions
    = Some (misclassified_rows text one (Py.format_not one) y tweets predictions) /\
  (Forall (fun p => p = one \/ p = Py.format_not one) predictions ->
   length (misclassified_rows text one (Py.format_not one) y tweets predictions)
   + correct_count (one_vs_rest_label one <$> y) predictions
   = length predictions).
Proof.
  intros Hy Ht. split.
  - unfold misclassified, enumerate.
    rewrite (misclassified_loop text one (Py.format_not one) y tweets predictions
               0 y tweets []) by (done || lia).
    done.
  - by apply misclassified_count.
Qed.

Lemma misclassified_listing_witness :
  misclassified tweet_raw_text "query" "not_query" sample_gold
                [tweet_A; tweet_B; tweet_C; tweet_D] sample_query
    = Some [("comment", "query", "Is that true?", "Breaking news: X happened")] /\
  (Forall (fun p => p = "query" \/ p = "not_query") sample_query ->
   length [("comment", "query", "Is that true?", "Breaking news: X happened")]
   + correct_count (one_vs_rest_label "query" <$> sample_gold) sample_query
   = length sample_query).
Proof.
  apply (misclassified_listing tweet_raw_text "query" sample_gold
           [tweet_A; tweet_B; tweet_C; tweet_D] sample_query); reflexivity.
Defined.

(** X15. A prediction that is neither the class nor 'not_<class>' is never
    listed, and the gold labels are not read for it: the loop ends normally
    with no row even without any gold label. *)
Theorem misclassified_skips_other_labels (text : Tweet -> string)
    (one not_one : string) (y : list string) (tweets : list Tweet)
    (predictions : list string) :
  Forall (fun p => p <> one /\ p <> not_one) predictions ->
  misclassified text one not_one y tweets predictions = Some [].
Proof.
  intros Hall. unfold misclassified, enumerate.
  generalize 0 as k. induction Hall as [|p predictions [H1 H2] _ IH]; intros k;
    [done|].
  cbn [length seq zip zip_with Py.for_each]. unfold misclassified_step at 1.
  rewrite (proj2 (str_eq_false p one) H1), (proj2 (str_eq_false p not_one) H2).
  simpl. apply IH.
Qed.

Lemma misclassified_skips_other_labels_witness :
  misclassified tweet_raw_text "query" "not_query" [] [] ["comment"; "deny"] = Some [].
Proof.
  apply misclassified_skips_other_labels.
  repeat constructor; discriminate.
Defined.

(** ** Training Filter: errors, cache and composition *)

Lemma filter_all {A : Type} (P : A -> Prop) `{!forall x, Decision (P x)} (l : list A) :
  Forall P l -> filter P l = l.
Proof.
  induction 1 as [|x l Hx _ IH]; [done|].
  by rewrite filter_cons, decide_True, IH.
Qed.

Lemma sublist_filter_mono {A : Type} (P1 P2 : A -> Prop)
    `{!forall x, Decision (P1 x)} `{!forall x, Decision (P2 x)} (l : list A) :
  (forall x, x ∈ l -> P1 x -> P2 x) -> sublist (filter P1 l) (filter P2 l).
Proof.
  induction l as [|a l IH]; intros Himp; [constructor|].
  assert (IH' : sublist (filter P1 l) (filter P2 l)).
  { apply IH. intros x Hx. apply Himp. by apply list_elem_of_further. }
  rewrite !filter_cons.
  destruct (decide (P1 a)) as [H1|H1].
  - rewrite decide_True by (apply Himp; [apply list_elem_of_here | done]).
    by constructor.
  - destruct (decide (P2 a)); [by constructor | done].
Qed.

Section FilterCache.

Variable text : Tweet -> string.

Lemma final_cache_grows (tweets : list Tweet) : forall c,
  c ⊆ final_cache text c tweets.
Proof.
  unfold final_cache. induction tweets as [|t tweets IH]; intros c; simpl; [done|].
  etrans; [apply next_cache_grows | apply IH].
Qed.

(** Every text of the final cache was read from the root of a tweet of the
    list, under that root's id. *)
Lemma final_cache_provenance (tweets : list Tweet) : forall c k x,
  final_cache text c tweets !! k = Some x ->
  c !! k = Some x \/
  exists t, t ∈ tweets /\ tweet_id (root_of t) = k /\ x = text (root_of t).
Proof.
  unfold final_cache. induction tweets as [|t tweets IH]; intros c k x Hk;
    simpl in Hk; [by left|].
  destruct (IH _ _ _ Hk) as [Hc|(t' & Hin & Hid & Hx)].
  - unfold next_cache in Hc.
    destruct (Tweet_eqb (root_of t) t); [by left|].
    destruct (decide (tweet_id (root_of t) = k)) as [<-|Hne].
    + rewrite lookup_insert_eq in Hc. injection Hc as <-.
      unfold root_text_at.
      destruct (c !! tweet_id (root_of t)) as [cached|] eqn:Hcache; simpl.
      * by left.
      * right. exists t. split; [apply list_elem_of_here | done].
    + rewrite lookup_insert_ne in Hc by done. by left.
  - right. exists t'. split; [by apply list_elem_of_further | done].
Qed.

Lemma root_text_unique (tweets : list Tweet) (t : Tweet) :
  root_ids_unique text tweets -> t ∈ tweets ->
  root_text_at text (final_cache text ∅ tweets) t = text (root_of t).
Proof.
  intros Huniq Ht. unfold root_text_at.
  destruct (final_cache text ∅ tweets !! tweet_id (root_of t)) as [x|] eqn:Hx;
    simpl; [|done].
  destruct (final_cache_provenance _ _ _ _ Hx) as [Hemp|(t' & Hin & Hid & ->)].
  - by rewrite lookup_empty in Hemp.
  - by apply Huniq.
Qed.

Lemma root_ids_unique_subset (tweets tweets' : list Tweet) :
  (forall t, t ∈ tweets' -> t ∈ tweets) ->
  root_ids_unique text tweets -> root_ids_unique text tweets'.
Proof. intros Hsub Huniq t1 t2 H1 H2. apply Huniq; by apply Hsub. Qed.

Variable sim : string -> string -> option Q.
Variable filter_short : bool.
Variable threshold : Q.

Local Abbreviation step := (filter_step text sim filter_short threshold).
Local Abbreviation decide_at := (decision text sim filter_short threshold).
Local Abbreviation kept c := (fun t : Tweet => decide_at c t = Some true).

Lemma filter_loop_final_cache (tweets : list Tweet) : forall c acc c' acc',
  Py.for_each step tweets (c, acc) = Some (c', acc') ->
  c' = final_cache text c tweets.
Proof.
  unfold final_cache.
  induction tweets as [|t tweets IH]; intros c acc c' acc' Hrun;
    cbn [Py.for_each] in Hrun.
  - by injection Hrun as <- _.
  - rewrite filter_step_decision in Hrun.
    destruct (decide_at c t) as [d|]; simpl in Hrun; [|discriminate].
    simpl. by apply (IH _ _ _ _ Hrun).
Qed.

(** The converse of [filter_loop_spec]: the loop ends normally when the
    decision of every tweet is defined under the final cache. *)
Lemma filter_loop_run (tweets : list Tweet) : forall c acc,
  Forall (fun t => is_Some (decide_at (final_cache text c tweets) t)) tweets ->
  Py.for_each step tweets (c, acc)
  = Some (final_cache text c tweets,
          acc ++ filter (kept (final_cache text c tweets)) tweets).
Proof.
  induction tweets as [|t tweets IH]; intros c acc Hall; cbn [Py.for_each].
  - unfold final_cache. simpl. by rewrite app_nil_r.
  - inversion Hall as [|? ? Ht Hall']; subst.
    change (final_cache text c (t :: tweets))
      with (final_cache text (next_cache text c t) tweets) in *.
    assert (Hstable : decide_at (final_cache text (next_cache text c t) tweets) t
                      = decide_at c t).
    { apply decision_stable, final_cache_grows. }
    rewrite filter_step_decision.
    rewrite Hstable in Ht. destruct Ht as [d Hd]. rewrite Hd. simpl.
    rewrite (IH _ _ Hall'), filter_cons, Hstable, Hd.
    destruct d.
    + rewrite decide_True by done. by rewrite <- app_assoc.
    + rewrite decide_False by discriminate. done.
Qed.

Lemma filter_tweets_final (tweets out : list Tweet) :
  filter_tweets text sim filter_short threshold tweets = Some out ->
  out = filter (kept (final_cache text ∅ tweets)) tweets /\
  Forall (fun t => is_Some (decide_at (final_cache text ∅ tweets) t)) tweets.
Proof.
  intros Hrun. destruct (filter_tweets_run _ _ _ _ _ _ Hrun) as [c Hc].
  pose proof (filter_loop_final_cache _ _ _ _ _ Hc) as ->.
  by destruct (filter_loop_spec _ _ _ _ _ _ _ _ _ Hc) as (_ & -> & Hall).
Qed.

Lemma filter_tweets_run_final (tweets : list Tweet) :
  Forall (fun t => is_Some (decide_at (final_cache text ∅ tweets) t)) tweets ->
  filter_tweets text sim filter_short threshold tweets
  = Some (filter (kept (final_cache text ∅ tweets)) tweets).
Proof.
  intros Hall. unfold filter_tweets. by rewrite (filter_loop_run _ _ [] Hall).
Qed.

Lemma decision_unique (tweets : list Tweet) (t : Tweet) :
  root_ids_unique text tweets -> t ∈ tweets ->
  decide_at (final_cache text ∅ tweets) t = decide_at ∅ t.
Proof.
  intros Huniq Ht. unfold decision.
  rewrite (root_text_unique tweets t Huniq Ht).
  unfold root_text_at. by rewrite lookup_empty.
Qed.

(** With ids that identify root texts, the filter is the plain filter by
    the cache-free decision, defined when every decision is. *)
Lemma filter_tweets_unique_run (tweets : list Tweet) :
  root_ids_unique text tweets ->
  Forall (fun t => is_Some (decide_at ∅ t)) tweets ->
  filter_tweets text sim filter_short threshold tweets
  = Some (filter (kept ∅) tweets).
Proof.
  intros Huniq Hall. rewrite filter_tweets_run_final.
  - f_equal. apply filter_agree. intros t Ht.
    by rewrite (decision_unique tweets t Huniq Ht).
  - apply list.Forall_forall. intros t Ht.
    rewrite (decision_unique tweets t Huniq Ht).
    by apply (proj1 (list.Forall_forall _ _) Hall).
Qed.

End FilterCache.

(** X16. A list of root tweets is returned unchanged, and the library is
    not called: the result is the same whatever the library would answer
    or raise. *)
Theorem roots_only_unchanged
    (text : Tweet -> string) (sim : string -> string -> option Q)
    (filter_short : bool) (threshold : Q) (tweets : list Tweet) :
  Forall (fun t => root_of t = t) tweets ->
  filter_tweets text sim filter_short threshold tweets = Some tweets.
Proof.
  intros Hall. unfold filter_tweets.
  assert (H : forall c acc,
    Py.for_each (filter_step text sim filter_short threshold) tweets (c, acc)
    = Some (c, acc ++ tweets)).
  { induction Hall as [|t tweets Ht _ IH]; intros c acc; cbn [Py.for_each].
    - by rewrite app_nil_r.
    - unfold filter_step at 1. rewrite (proj2 (root_test_true t) Ht).
      rewrite IH. by rewrite <- app_assoc. }
  by rewrite H.
Qed.

Lemma roots_only_unchanged_witness :
  filter_tweets tweet_raw_text (fun _ _ => None) true 0 [tweet_R; tweet_R]
  = Some [tweet_R; tweet_R].
Proof.
  apply roots_only_unchanged. repeat constructor.
Defined.

(** X17. With ids that identify root texts, the filter ends normally
    exactly when the library returns a score for every tweet it is asked
    about: the tweets that are not roots and are not dropped by the
    short-text check, each paired with its root. One library exception
    aborts the whole call. *)
Theorem filter_tweets_returns_iff
    (text : Tweet -> string) (sim : string -> string -> option Q)
    (filter_short : bool) (threshold : Q) (tweets : list Tweet) :
  root_ids_unique text tweets ->
  (is_Some (filter_tweets text sim filter_short threshold tweets) <->
   forall t, t ∈ tweets -> root_of t <> t ->
     filter_short && too_short (text t) = false ->
     is_Some (sim (text (root_of t)) (text t))).
Proof.
  intros Huniq.
  assert (Hdef : forall t,
    is_Some (decision text sim filter_short threshold ∅ t) <->
    (root_of t <> t -> filter_short && too_short (text t) = false ->
     is_Some (sim (text (root_of t)) (text t)))).
  { intros t. unfold decision, root_text_at. rewrite lookup_empty. simpl.
    destruct (Tweet_eqb (root_of t) t) eqn:Hroot.
    - apply root_test_true in Hroot. split; [done | eauto].
    - apply root_test_false in Hroot.
      destruct (filter_short && too_short (text t)); [split; [done | eauto]|].
      destruct (sim (text (root_of t)) (text t)) as [s|]; simpl.
      + split; eauto.
      + split; [intros [? ?]; discriminate|].
        intros H. destruct (H Hroot eq_refl) as [? ?]. discriminate. }
  split.
  - intros [out Hout] t Ht.
    destruct (filter_tweets_spec _ _ _ _ _ _ Huniq Hout) as [_ Hall].
    apply Hdef. by apply (proj1 (list.Forall_forall _ _) Hall).
  - intros H. rewrite filter_tweets_unique_run; [eauto | done |].
    apply list.Forall_forall. intros t Ht. apply Hdef. by apply H.
Qed.

Lemma filter_tweets_returns_iff_witness :
  is_Some (filter_tweets tweet_raw_text sample_similarity true (9 # 10) sample_tweets)
  <-> forall t, t ∈ sample_tweets -> root_of t <> t ->
        true && too_short (tweet_raw_text t) = false ->
        is_Some (sample_similarity (tweet_raw_text (root_of t)) (tweet_raw_text t)).
Proof.
  apply (filter_tweets_returns_iff tweet_raw_text sample_similarity true (9 # 10)).
  apply sample_tweets_unique.
Defined.

Lemma decision_defined_threshold (text : Tweet -> string)
    (sim : string -> string -> option Q) (filter_short : bool) (thr1 thr2 : Q)
    (c : gmap Z string) (t : Tweet) :
  is_Some (decision text sim filter_short thr1 c t) ->
  is_Some (decision text sim filter_short thr2 c t).
Proof.
  unfold decision. destruct (Tweet_eqb (root_of t) t); [done|].
  destruct (filter_short && too_short (text t)); [done|].
  destruct (sim _ _); simpl; [eauto | done].
Qed.

(** X18. Raising the threshold never loses a message: when the filter
    returns for a threshold, it returns for every larger one, and the first
    output is a subsequence of the second. *)
Theorem filter_threshold_monotone
    (text : Tweet -> string) (sim : string -> string -> option Q)
    (filter_short : bool) (thr1 thr2 : Q) (tweets out1 : list Tweet) :
  (thr1 <= thr2)%Q ->
  filter_tweets text sim filter_short thr1 tweets = Some out1 ->
  exists out2,
    filter_tweets text sim filter_short thr2 tweets = Some out2 /\
    sublist out1 out2.
Proof.
  intros Hle Hrun.
  destruct (filter_tweets_final _ _ _ _ _ _ Hrun) as [-> Hall].
  eexists. split.
  - apply filter_tweets_run_final.
    apply list.Forall_forall. intros t Ht.
    apply (decision_defined_threshold _ _ _ thr1).
    by apply (proj1 (list.Forall_forall _ _) Hall).
  - apply sublist_filter_mono. intros t _. unfold decision.
    destruct (Tweet_eqb (root_of t) t); [done|].
    destruct (filter_short && too_short (text t)); [done|].
    destruct (sim _ _) as [s|]; simpl; [|done].
    intros H. injection H as H. apply lt_spec in H.
    f_equal. apply lt_spec. by apply (Qlt_le_trans _ thr1).
Qed.

Lemma filter_threshold_monotone_witness :
  exists out2,
    filter_tweets tweet_raw_text sample_similarity true (11 # 10) sample_tweets
      = Some out2 /\
    sublist [tweet_R; tweet_A; tweet_B; tweet_E] out2.
Proof.
  apply (filter_threshold_monotone tweet_raw_text sample_similarity true
           (9 # 10) (11 # 10) sample_tweets [tweet_R; tweet_A; tweet_B; tweet_E]);
    [discriminate | vm_compute; reflexivity].
Defined.

(** X19. Switching the short-text check on only removes messages: when the
    filter returns without the check, it returns with it, and the output
    with the check is a subsequence of the output without. *)
Theorem filter_short_removes
    (text : Tweet -> string) (sim : string -> string -> option Q)
    (threshold : Q) (tweets out : list Tweet) :
  filter_tweets text sim false threshold tweets = Some out ->
  exists out',
    filter_tweets text sim true threshold tweets = Some out' /\
    sublist out' out.
Proof.
  intros Hrun.
  destruct (filter_tweets_final _ _ _ _ _ _ Hrun) as [-> Hall].
  eexists. split.
  - apply filter_tweets_run_final.
    apply list.Forall_forall. intros t Ht.
    pose proof (proj1 (list.Forall_forall _ _) Hall t Ht) as Hdef.
    cbv beta in Hdef. unfold decision in *.
    destruct (Tweet_eqb (root_of t) t); [done|].
    simpl in *. destruct (too_short (text t)); [done | exact Hdef].
  - apply sublist_filter_mono. intros t _. unfold decision.
    destruct (Tweet_eqb (root_of t) t); [done|].
    simpl. destruct (too_short (text t)); [discriminate | done].
Qed.

Lemma filter_short_removes_witness :
  exists out',
    filter_tweets tweet_raw_text sample_similarity true (9 # 10) sample_tweets
      = Some out' /\
    sublist out' [tweet_R; tweet_A; tweet_B; tweet_C; tweet_E].
Proof.
  apply (filter_short_removes tweet_raw_text sample_similarity (9 # 10) sample_tweets).
  vm_compute. reflexivity.
Defined.

(** X20. With ids that identify root texts the filter is idempotent:
    filtering its own output returns that output. *)
Theorem filter_tweets_idempotent
    (text : Tweet -> string) (sim : string -> string -> option Q)
    (filter_short : bool) (threshold : Q) (tweets out : list Tweet) :
  root_ids_unique text tweets ->
  filter_tweets text sim filter_short threshold tweets = Some out ->
  filter_tweets text sim filter_short threshold out = Some out.
Proof.
  intros Huniq Hrun.
  destruct (filter_tweets_spec _ _ _ _ _ _ Huniq Hrun) as [Hout Hall].
  assert (Hsub : forall t, t ∈ out -> t ∈ tweets).
  { intros t Ht. rewrite Hout in Ht. by apply list_elem_of_filter in Ht as [_ ?]. }
  rewrite filter_tweets_unique_run.
  - f_equal. apply filter_all. apply list.Forall_forall. intros t Ht.
    rewrite Hout in Ht. by apply list_elem_of_filter in Ht as [? _].
  - by apply (root_ids_unique_subset text tweets).
  - apply list.Forall_forall. intros t Ht.
    by apply (proj1 (list.Forall_forall _ _) Hall), Hsub.
Qed.

Lemma filter_tweets_idempotent_witness :
  filter_tweets tweet_raw_text sample_similarity true (9 # 10)
                [tweet_R; tweet_A; tweet_B; tweet_E]
  = Some [tweet_R; tweet_A; tweet_B; tweet_E].
Proof.
  apply (filter_tweets_idempotent tweet_raw_text sample_similarity true (9 # 10)
           sample_tweets);
    [apply sample_tweets_unique | vm_compute; reflexivity].
Defined.

(** X21. With ids that identify root texts the filter works tweet by
    tweet: filtering a concatenation gives the concatenation of the two
    filtered lists. *)
Theorem filter_tweets_app
    (text : Tweet -> string) (sim : string -> string -> option Q)
    (filter_short : bool) (threshold : Q) (tweets1 tweets2 out : list Tweet) :
  root_ids_unique text (tweets1 ++ tweets2) ->
  filter_tweets text sim filter_short threshold (tweets1 ++ tweets2) = Some out ->
  exists out1 out2,
    filter_tweets text sim filter_short threshold tweets1 = Some out1 /\
    filter_tweets text sim filter_short threshold tweets2 = Some out2 /\
    out = out1 ++ out2.
Proof.
  intros Huniq Hrun.
  destruct (filter_tweets_spec _ _ _ _ _ _ Huniq Hrun) as [Hout Hall].
  apply Forall_app in Hall as [Hall1 Hall2].
  eexists _, _. split; [|split].
  - apply filter_tweets_unique_run; [|done].
    apply (root_ids_unique_subset text (tweets1 ++ tweets2)); [|done].
    intros t Ht. apply elem_of_app. by left.
  - apply filter_tweets_unique_run; [|done].
    apply (root_ids_unique_subset text (tweets1 ++ tweets2)); [|done].
    intros t Ht. apply elem_of_app. by right.
  - by rewrite Hout, list.filter_app.
Qed.

Lemma filter_tweets_app_witness :
  exists out1 out2,
    filter_tweets tweet_raw_text sample_similarity true (9 # 10)
                  [tweet_R; tweet_A; tweet_B] = Some out1 /\
    filter_tweets tweet_raw_text sample_similarity true (9 # 10)
                  [tweet_C; tweet_D; tweet_E] = Some out2 /\
    [tweet_R; tweet_A; tweet_B; tweet_E] = out1 ++ out2.
Proof.
  apply (filter_tweets_app tweet_raw_text sample_similarity true (9 # 10)
           [tweet_R; tweet_A; tweet_B] [tweet_C; tweet_D; tweet_E]);
    [apply sample_tweets_unique | vm_compute; reflexivity].
Defined.

(** X22. The cache is keyed by the root's id alone: of two replies whose
    roots carry the same id, the second is scored against the text cached
    for the first one's root, not against the text of its own root. *)
Theorem cache_keeps_first_root_text
    (text : Tweet -> string) (sim : string -> string -> option Q)
    (threshold : Q) (t1 t2 : Tweet) :
  root_of t1 <> t1 ->
  root_of t2 <> t2 ->
  tweet_id (root_of t1) = tweet_id (root_of t2) ->
  filter_tweets text sim false threshold [t1; t2]
  = s1 ← sim (text (root_of t1)) (text t1);
    s2 ← sim (text (root_of t1)) (text t2);
    Some ((if Py.lt s1 threshold then [t1] else [])
          ++ (if Py.lt s2 threshold then [t2] else [])).
Proof.
  intros H1 H2 Hid. unfold filter_tweets. cbn [Py.for_each].
  unfold filter_step at 1. rewrite (proj2 (root_test_false t1) H1).
  rewrite lookup_empty. simpl.
  destruct (sim (text (root_of t1)) (text t1)) as [s1|]; simpl; [|done].
  destruct (Py.lt s1 threshold);
    unfold filter_step; rewrite (proj2 (root_test_false t2) H2);
    rewrite <- Hid, lookup_insert_eq; simpl;
    (destruct (sim (text (root_of t1)) (text t2)) as [s2|]; simpl; [|done]);
    destruct (Py.lt s2 threshold); done.
Qed.

Lemma cache_keeps_first_root_text_witness :
  filter_tweets tweet_raw_text sample_similarity false (9 # 10)
    [tweet_A; MkTweet 7 "X is false" (Some (MkTweet 1 "Is that true?" None))]
  = s1 ← sample_similarity "Breaking news: X happened" "Is that true?";
    s2 ← sample_similarity "Breaking news: X happened" "X is false";
    Some ((if Py.lt s1 (9 # 10) then [tweet_A] else [])
          ++ (if Py.lt s2 (9 # 10)
              then [MkTweet 7 "X is false" (Some (MkTweet 1 "Is that true?" None))]
              else [])).
Proof.
  apply (cache_keeps_first_root_text tweet_raw_text sample_similarity (9 # 10)
           tweet_A (MkTweet 7 "X is false" (Some (MkTweet 1 "Is that true?" None))));
    [vm_compute; discriminate | vm_compute; discriminate | reflexivity].
Defined.
